(** * earthpy.mask: pixel masking with a QA layer

    A shallow embedding of [src/earthpy/mask.py] ([_create_mask],
    [_apply_mask], [mask_pixels]) together with the numpy operations the
    three functions call, and the properties of the masking engine.

    Scope of the model.
    - Array elements are integers ([Z]).  A boolean numpy array is
      represented by its 0/1 values, which is how numpy compares it with
      integers and coerces it ([True == 1], [False == 0]).  Floating
      point elements (NaN in particular) are outside the model.
    - An ndarray is a shape (a tuple of dimension sizes) and a flat
      row-major buffer.
    - Lists and ndarrays are mutable Python objects: they live in a store
      and are passed by reference, so that [vals.sort()] and
      [mask_arr[temp_mask] = 1] are visible to the caller.
    - Arguments that are not arrays are plain Python objects: [None], an
      int, a tuple of ints, or a reference to a list of ints.  The QA
      layer or mask is a plain ndarray or such an object (a masked array
      in that position is outside the model); the data array may be a
      masked array.  [mask_pixels] takes its second argument as an
      ndarray.
    - numpy is the numpy of the source's time (before 1.25), where a
      comparison of arrays whose shapes do not broadcast answers
      [False]. *)

From stdpp Require Import gmap list sorting strings.
From Stdlib Require Import ZArith.

Local Open Scope string_scope.
Local Open Scope Z_scope.

(** ** Data model *)

Definition loc := positive.

Record ndarray (A : Type) := mk_ndarray { shape : list nat; data : list A }.
Arguments mk_ndarray {A} _ _.
Arguments shape {A} _.
Arguments data {A} _.

(** Number of elements of an array of the given shape. *)
Definition size_of (s : list nat) : nat := foldr Nat.mul 1%nat s.

(** The buffer of a well-formed array has one element per index. *)
Definition wf_ndarray {A} (a : ndarray A) : Prop :=
  length (data a) = size_of (shape a).

Inductive obj :=
| OList (xs : list Z)
| OArray (a : ndarray Z).

Abbreviation heap := (gmap loc obj).

(** Plain Python objects. *)
Inductive pyobj :=
| PNone
| PInt (z : Z)
| PTuple (xs : list Z)
| PList (l : loc).

(** What a caller may pass where the source expects a QA layer or a
    mask: a plain object or a reference to an ndarray. *)
Inductive array_arg :=
| Obj (o : pyobj)
| Arr (l : loc).

(** What a caller may pass as the data array; also what [_apply_mask]
    returns.  A [MaskedArray] is a view of the data buffer at [l] with
    its own mask; [None] is numpy's [nomask]. *)
Inductive data_arg :=
| DObj (o : pyobj)
| DArr (l : loc)
| DMasked (l : loc) (m : option (ndarray bool)).

Inductive exn :=
| AttributeError (msg : string)
| ValueError (msg : string)
| TypeError (msg : string)
| IndexError (msg : string)
| MaskError (msg : string).

(** The error taxonomy of the specification, as the source raises it. *)
Definition InvalidInput_values : exn :=
  AttributeError "Values should be provided as a list".
Definition InvalidInput : exn :=
  AttributeError "Input arr should be a numpy array".
Definition InvalidMask : exn :=
  ValueError "Mask requires values of 1 (True) to be applied.".
Definition ValueNotFound : exn :=
  ValueError "Values to mask are not in provided mask layer.".
Definition NotABinaryMask : exn :=
  AttributeError
    "Please provide either a masked array or a Pixel QA layer with values to mask.".

(** ** Computations over the store *)

(** [Undefined] stands for no Python run at all: a reference the store
    does not hold, or a branch the source cannot reach. *)
Inductive outcome (A : Type) :=
| Return (a : A) (h : heap)
| Raise (e : exn) (h : heap)
| Undefined.
Arguments Return {A} _ _.
Arguments Raise {A} _ _.
Arguments Undefined {A}.

Definition M (A : Type) : Type := heap → outcome A.

Definition ret {A} (a : A) : M A := fun h => Return a h.
Definition raise {A} (e : exn) : M A := fun h => Raise e h.
Definition undefined {A} : M A := fun _ => Undefined.

Definition bind {A B} (m : M A) (k : A → M B) : M B :=
  fun h => match m h with
           | Return a h' => k a h'
           | Raise e h' => Raise e h'
           | Undefined => Undefined
           end.

(** [try: m  except AttributeError: handler]. *)
Definition try_except_AttributeError {A} (m handler : M A) : M A :=
  fun h => match m h with
           | Raise (AttributeError _) h' => handler h'
           | o => o
           end.

Declare Scope py_scope.
Delimit Scope py_scope with py.
Notation "x <- c ;; k" := (bind c (fun x => k))
  (at level 100, c at next level, right associativity) : py_scope.
Notation "c ;;; k" := (bind c (fun _ => k))
  (at level 100, right associativity) : py_scope.
Notation "'try' m 'except_AttributeError' k" :=
  (try_except_AttributeError m k) (at level 99, m at level 98) : py_scope.
Local Open Scope py_scope.

Definition get_list (l : loc) : M (list Z) :=
  fun h => match h !! l with
           | Some (OList xs) => Return xs h
           | _ => Undefined
           end.

Definition get_array (l : loc) : M (ndarray Z) :=
  fun h => match h !! l with
           | Some (OArray a) => Return a h
           | _ => Undefined
           end.

Definition put (l : loc) (o : obj) : M unit :=
  fun h => Return tt (<[l := o]> h).

(** ** Python builtins *)

Definition type_name (o : pyobj) : string :=
  match o with
  | PNone => "NoneType"
  | PInt _ => "int"
  | PTuple _ => "tuple"
  | PList _ => "list"
  end.

Definition no_attribute {A} (o : pyobj) (attr : string) : M A :=
  raise (AttributeError
           ("'" +:+ type_name o +:+ "' object has no attribute '" +:+ attr +:+ "'")).

(** [bool(o)], as evaluated by [if vals:]. *)
Definition truthy (o : pyobj) : M bool :=
  match o with
  | PNone => ret false
  | PInt z => ret (negb (z =? 0))
  | PTuple xs => ret (negb (bool_decide (xs = [])))
  | PList l => xs <- get_list l ;; ret (negb (bool_decide (xs = [])))
  end.

(** [list.sort()] on a list of ints: the sorted list replaces the
    contents of the same list object. *)
Definition py_sorted (xs : list Z) : list Z := merge_sort Z.le xs.

(** [vals.sort()]: only a list has the method. *)
Definition method_sort (vals : pyobj) : M unit :=
  match vals with
  | PList l => xs <- get_list l ;; put l (OList (py_sorted xs))
  | o => no_attribute o "sort"
  end.

(** The numbers of a sequence argument, as numpy reads them
    ([np.asarray(o).ravel()]); [None] holds no number. *)
Definition items (o : pyobj) : M (list Z) :=
  match o with
  | PNone => ret []
  | PInt z => ret [z]
  | PTuple xs => ret xs
  | PList l => get_list l
  end.

(** ** numpy *)

(** [a == v] for an ndarray and a scalar, element by element. *)
Definition np_eq_scalar (a : ndarray Z) (v : Z) : ndarray bool :=
  mk_ndarray (shape a) (map (fun x => x =? v) (data a)).

(** [input_mask == 1].  On an ndarray the comparison is element-wise.
    A plain object is compared by Python itself ([None == 1],
    [(1,) == 1] and [[1] == 1] are all [False]) and numpy then reads the
    answer as a 0-d array. *)
Definition eq_one (input_mask : array_arg) : M (ndarray bool) :=
  match input_mask with
  | Arr l => a <- get_array l ;; ret (np_eq_scalar a 1)
  | Obj (PInt z) => ret (mk_ndarray [] [z =? 1])
  | Obj _ => ret (mk_ndarray [] [false])
  end.

Definition np_any (a : ndarray bool) : bool := existsb id (data a).

Definition np_isin (element : ndarray Z) (test_elements : list Z) : ndarray bool :=
  mk_ndarray (shape element)
             (map (fun x => bool_decide (x ∈ test_elements)) (data element)).

(** [~m] on a boolean array. *)
Definition np_invert (m : ndarray bool) : ndarray bool :=
  mk_ndarray (shape m) (map negb (data m)).

(** [mask_arr.ndim] followed by a use of [mask_arr] as an ndarray: a
    plain object has no such attribute. *)
Definition as_ndarray (mask_arr : array_arg) : M (ndarray Z) :=
  match mask_arr with
  | Arr l => get_array l
  | Obj o => no_attribute o "ndim"
  end.

(** [mask_arr[index] = v] with a boolean index array: the buffer of the
    array object is overwritten where the index is [True]. *)
Definition setitem_bool (mask_arr : array_arg) (index : ndarray bool) (v : Z)
  : M unit :=
  match mask_arr with
  | Arr l =>
      a <- get_array l ;;
      if bool_decide (shape index = shape a)
      then put l (OArray (mk_ndarray (shape a)
                   (zip_with (fun x (b : bool) => if b then v else x)
                             (data a) (data index))))
      else raise (IndexError "boolean index did not match indexed array")
  | Obj o =>
      raise (TypeError
               ("'" +:+ type_name o +:+ "' object does not support item assignment"))
  end.

(** [np.broadcast_to]: the shapes are aligned on the last axis.  The
    leading axes of the target that the source lacks are new; on every
    other axis the source has the length of the target or length 1.  A
    source with more axes than the target does not broadcast. *)
Fixpoint broadcastable (s t : list nat) : bool :=
  match t with
  | [] => bool_decide (s = [])
  | d :: t' =>
      if decide (length s < length t)%nat then broadcastable s t'
      else match s with
           | [] => false
           | k :: s' =>
               (bool_decide (k = d) || bool_decide (k = 1%nat))
               && broadcastable s' t'
           end
  end.

(** [k] consecutive blocks of [n] elements. *)
Fixpoint chunks {A} (n k : nat) (xs : list A) : list (list A) :=
  match k with
  | O => []
  | S k' => take n xs :: chunks n k' (drop n xs)
  end.

Fixpoint broadcast_data {A} (s t : list nat) (xs : list A) : list A :=
  match t with
  | [] => xs
  | d :: t' =>
      if decide (length s < length t)%nat
      then concat (replicate d (broadcast_data s t' xs))
      else match s with
           | [] => xs
           | k :: s' =>
               if decide (k = d)
               then concat (map (broadcast_data s' t') (chunks (size_of s') k xs))
               else concat (replicate d (broadcast_data s' t' xs))
           end
  end.

(** numpy's message names the two shapes; only its leading words are
    kept. *)
Definition np_broadcast_to {A} (a : ndarray A) (shp : list nat) : M (ndarray A) :=
  if broadcastable (shape a) shp
  then ret (mk_ndarray shp (broadcast_data (shape a) shp (data a)))
  else raise (ValueError "operands could not be broadcast together").

(** [np.logical_or] of two boolean arrays of one shape. *)
Definition np_logical_or (a b : ndarray bool) : ndarray bool :=
  mk_ndarray (shape b) (zip_with orb (data a) (data b)).

(** [arr.shape]. *)
Definition getattr_shape (arr : data_arg) : M (list nat) :=
  match arr with
  | DObj o => no_attribute o "shape"
  | DArr l | DMasked l _ => a <- get_array l ;; ret (shape a)
  end.

Definition isinstance_MaskedArray (arr : data_arg) : bool :=
  match arr with
  | DMasked _ _ => true
  | _ => false
  end.

(** [arr.mask] of a masked array ([None] is [nomask]). *)
Definition getattr_mask (arr : data_arg) : option (ndarray bool) :=
  match arr with
  | DMasked _ m => m
  | _ => None
  end.

(** The mask given to the [MaskedArray] constructor is brought to the
    shape of the data: kept when the shapes agree, resized when it has
    one element, reshaped when it has as many elements as the data. *)
Definition fit_mask (mask : ndarray bool) (shp : list nat) : M (ndarray bool) :=
  if bool_decide (shape mask = shp) then ret mask
  else if bool_decide (length (data mask) = 1%nat)
  then ret (mk_ndarray shp (concat (replicate (size_of shp) (data mask))))
  else if bool_decide (length (data mask) = size_of shp)
  then ret (mk_ndarray shp (data mask))
  else raise (MaskError "Mask and data not compatible").

(** [ma.masked_array(arr, mask=mask)] with the defaults [copy=False] and
    [keep_mask=True]: the result is a view of the buffer of [arr]; a
    mask that [arr] already carries is or-ed into the new one.  The
    source only reaches the constructor with an array. *)
Definition ma_masked_array (arr : data_arg) (mask : ndarray bool) : M data_arg :=
  match arr with
  | DObj _ => undefined
  | DArr l | DMasked l None =>
      a <- get_array l ;;
      m <- fit_mask mask (shape a) ;;
      ret (DMasked l (Some m))
  | DMasked l (Some m0) =>
      a <- get_array l ;;
      m <- fit_mask mask (shape a) ;;
      ret (DMasked l (Some (np_logical_or m m0)))
  end.

(** [np.unique]: the sorted distinct values of the flattened array. *)
Fixpoint drop_repeats (xs : list Z) : list Z :=
  match xs with
  | [] => []
  | x :: tl =>
      match tl with
      | [] => [x]
      | y :: _ => if x =? y then drop_repeats tl else x :: drop_repeats tl
      end
  end.

Definition np_unique (a : ndarray Z) : list Z :=
  drop_repeats (merge_sort Z.le (data a)).

(** [a == b] for two 1-d arrays: the lengths must agree, or one of them
    be 1.  [None] when the shapes do not broadcast. *)
Definition eq_1d (a b : list Z) : option (list bool) :=
  if bool_decide (length a = length b) then Some (zip_with Z.eqb a b)
  else match a, b with
       | _, [y] => Some (map (fun x => x =? y) a)
       | [x], _ => Some (map (fun y => x =? y) b)
       | _, _ => None
       end.

(** [vals in mask_vals], that is [(mask_vals == vals).any()].  A
    sequence is compared as an array, with broadcasting; when the shapes
    do not broadcast the comparison answers [False] (numpy before 1.25,
    with a deprecation warning). *)
Definition ndarray_contains (mask_vals : list Z) (vals : pyobj) : M bool :=
  match vals with
  | PNone => ret false
  | PInt z => ret (existsb (fun x => x =? z) mask_vals)
  | PTuple _ | PList _ =>
      xs <- items vals ;;
      ret (match eq_1d mask_vals xs with
           | Some r => existsb id r
           | None => false
           end)
  end.

(** [mask_arr.astype(bool)], and [np.array_equal] of an integer array
    with a boolean one ([True] counts as 1, [False] as 0). *)
Definition astype_bool (a : ndarray Z) : ndarray bool :=
  mk_ndarray (shape a) (map (fun x => negb (x =? 0)) (data a)).

Definition np_array_equal (a : ndarray Z) (b : ndarray bool) : bool :=
  bool_decide (shape a = shape b)
  && forallb id (zip_with (fun x (c : bool) => x =? Z.b2z c) (data a) (data b)).

(** ** The source *)

Definition _create_mask (mask_arr : array_arg) (vals : pyobj) : M array_arg :=
  (try method_sort vals
   except_AttributeError raise InvalidInput_values) ;;;
  temp_mask <- (try (a <- as_ndarray mask_arr ;;
                     vs <- items vals ;;
                     ret (np_isin a vs))
                except_AttributeError raise InvalidInput) ;;
  setitem_bool mask_arr temp_mask 1 ;;;
  setitem_bool mask_arr (np_invert temp_mask) 0 ;;;
  ret mask_arr.

Definition _apply_mask (arr : data_arg) (input_mask : array_arg) : M data_arg :=
  is_one <- eq_one input_mask ;;
  if negb (np_any is_one) then raise InvalidMask
  else
    cover_mask <- (try (is_one <- eq_one input_mask ;;
                        shp <- getattr_shape arr ;;
                        np_broadcast_to is_one shp)
                   except_AttributeError raise InvalidInput) ;;
    let cover_mask :=
      if isinstance_MaskedArray arr
      then match getattr_mask arr with
           | Some m => np_logical_or m cover_mask
           | None => cover_mask
           end
      else cover_mask in
    ma_masked_array arr cover_mask.

Definition mask_pixels (arr : data_arg) (mask_arr : loc) (vals : pyobj)
  : M data_arg :=
  t <- truthy vals ;;
  cover_mask <-
    (if t then
       a <- get_array mask_arr ;;
       let mask_vals := np_unique a in
       found <- ndarray_contains mask_vals vals ;;
       if negb found then raise ValueNotFound
       else _create_mask (Arr mask_arr) vals
     else
       a <- get_array mask_arr ;;
       if np_array_equal a (astype_bool a) then raise NotABinaryMask
       else ret (Arr mask_arr)) ;;
  _apply_mask arr cover_mask.

(** ** Vocabulary of the statements *)

(** The mask the specification asks of [build_mask]: 1 at the members
    of [V], 0 elsewhere. *)
Definition membership_mask (Q : ndarray Z) (V : list Z) : ndarray Z :=
  mk_ndarray (shape Q)
             (map (fun x => if bool_decide (x ∈ V) then 1 else 0) (data Q)).

(** The store a run ends in, whether it returns or raises. *)
Definition final_heap {A} (o : outcome A) : option heap :=
  match o with
  | Return _ h | Raise _ h => Some h
  | Undefined => None
  end.

(** An array argument refers to an array of the store. *)
Definition array_in_store (h : heap) (a : array_arg) : Prop :=
  match a with
  | Arr q => ∃ Q, h !! q = Some (OArray Q)
  | Obj _ => True
  end.

(** [input_mask == 1] holds somewhere. *)
Definition holds_one (h : heap) (input_mask : array_arg) : Prop :=
  match input_mask with
  | Obj o => o = PInt 1
  | Arr m => ∃ M, h !! m = Some (OArray M) ∧ 1 ∈ data M
  end.

(** Every element equals its own boolean coercion. *)
Definition binary_valued (a : ndarray Z) : Prop :=
  Forall (fun x => x = 0 ∨ x = 1) (data a).

(** The buffer a data argument reads its values from, its exclusion
    flags, and its values read through the store. *)
Definition buffer (arr : data_arg) : option loc :=
  match arr with
  | DObj _ => None
  | DArr l | DMasked l _ => Some l
  end.

Definition prior_mask (arr : data_arg) : option (ndarray bool) :=
  match arr with
  | DMasked _ m => m
  | _ => None
  end.

Definition values (h : heap) (arr : data_arg) : option (list Z) :=
  l ← buffer arr; o ← h !! l;
  match o with
  | OArray a => Some (data a)
  | OList _ => None
  end.

(** The flags [_apply_mask] computes from the broadcast mask [c]: the
    source combines the prior flags with [c], and the constructor
    combines the outcome with the prior flags once more. *)
Definition combined (prior : option (ndarray bool)) (c : ndarray bool)
  : ndarray bool :=
  match prior with
  | None => c
  | Some p => np_logical_or (np_logical_or p c) p
  end.

(** ** Concrete stores *)

(** A store with a data array, a QA layer or mask, and a list of
    values. *)
Definition arr_loc : loc := 1%positive.
Definition mask_loc : loc := 2%positive.
Definition vals_loc : loc := 3%positive.

Definition store3 (D Q : ndarray Z) (V : list Z) : heap :=
  <[arr_loc := OArray D]>
    (<[mask_loc := OArray Q]> (<[vals_loc := OList V]> ∅)).

(** The arrays of the docstring of [mask_pixels]. *)
Definition im : ndarray Z := mk_ndarray [3; 3]%nat [0; 1; 2; 3; 4; 5; 6; 7; 8].
Definition im_mask : ndarray Z := mk_ndarray [3; 3]%nat [1; 1; 1; 0; 0; 0; 1; 1; 1].
Definition doc_store : heap := store3 im im_mask [1].

(** A three-band image with a one-band QA layer. *)
Definition bands : ndarray Z :=
  mk_ndarray [3; 2; 2]%nat [10; 11; 12; 13; 20; 21; 22; 23; 30; 31; 32; 33].
Definition qa_layer : ndarray Z := mk_ndarray [2; 2]%nat [66; 1; 96; 1].
Definition band_store : heap := store3 bands qa_layer [1].
Definition qa_store : heap := store3 bands qa_layer [96; 1].

(** [qa_layer == 1] on each of the three bands. *)
Definition band_cover : ndarray bool :=
  mk_ndarray [3; 2; 2]%nat
    [false; true; false; true; false; true; false; true; false; true; false; true].

Definition zeros : ndarray Z := mk_ndarray [2; 2]%nat [0; 0; 0; 0].
Definition zero_store : heap := store3 bands zeros [].

(** Two QA layers on which the value check of [mask_pixels] goes wrong. *)
Definition swapped_store : heap :=
  store3 (mk_ndarray [2]%nat [7; 8]) (mk_ndarray [2]%nat [1; 2]) [2; 1].
Definition absent_store : heap :=
  store3 (mk_ndarray [3]%nat [7; 8; 9]) (mk_ndarray [3]%nat [1; 2; 3]) [1; 999; 3].

(** ** Further definitions *)

(** The answer of [vals in mask_vals] for the unique values of [Q] and
    a list [V]. *)
Definition values_found (Q : ndarray Z) (V : list Z) : bool :=
  match eq_1d (np_unique Q) V with
  | Some r => existsb id r
  | None => false
  end.

Definition short_mask : ndarray Z := mk_ndarray [2]%nat [1; 0].

Definition rows_mask : ndarray Z := mk_ndarray [2; 1]%nat [0; 1].
Definition two_masks_store : heap :=
  <[4%positive := OArray rows_mask]> qa_store.
Definition rows_cover : ndarray bool :=
  mk_ndarray [3; 2; 2]%nat
    [false; false; true; true; false; false; true; true;
     false; false; true; true].

(** A masked array whose mask, if it has one, has the shape of the data
    buffer and one flag per element. *)
Definition wf_masked (D : ndarray Z) (prior : option (ndarray bool)) : Prop :=
  match prior with
  | None => True
  | Some p => shape p = shape D ∧ wf_ndarray p
  end.

(** The store [_create_mask] leaves behind: the mask in the QA array
    object and the sorted values in the list object. *)
Definition after_create_mask (h : heap) (m l : loc) (Q : ndarray Z) (V : list Z)
  : heap :=
  <[m := OArray (membership_mask Q V)]> (<[l := OList (py_sorted V)]> h).

(** A dict literal with string keys, in the order it is written;
    [d[k]] finds the entry of key [k] ([None] stands for [KeyError]). *)
Fixpoint dict_get {V} (d : list (string * V)) (k : string) : option V :=
  match d with
  | [] => None
  | (k', v) :: d' => if String.eqb k k' then Some v else dict_get d' k
  end.

Definition pixel_flags : list (string * list (string * list (string * list Z))) :=
  [("pixel_qa",
    [("L47",
      [("Fill", [1]);
       ("Clear", [66; 130]);
       ("Water", [68; 132]);
       ("Cloud Shadow", [72; 136]);
       ("Snow", [80; 112; 144; 176]);
       ("Cloud", [96; 112; 160; 176; 224]);
       ("Low Cloud Confidence", [66; 68; 72; 80; 96; 112]);
       ("Medium Cloud Confidence", [130; 132; 136; 144; 160; 176]);
       ("High Cloud Confidence", [224])]);
     ("L8",
      [("Fill", [1]);
       ("Clear", [322; 386; 834; 898; 1346]);
       ("Water", [324; 388; 836; 900; 1348]);
       ("Cloud Shadow", [328; 392; 840; 904; 1350]);
       ("Snow", [336; 368; 400; 432; 848; 880; 912; 944; 1352]);
       ("Cloud", [352; 368; 416; 432; 480; 864; 880; 928; 944; 992]);
       ("Low Cloud Confidence",
        [322; 324; 328; 336; 352; 368; 834; 836; 840; 848; 864; 880]);
       ("Medium Cloud Confidence",
        [386; 388; 392; 400; 416; 432; 900; 904; 928; 944]);
       ("High Cloud Confidence", [480; 992]);
       ("Low Cirrus Confidence",
        [322; 324; 328; 336; 352; 368; 386; 388; 392; 400; 416; 432; 480]);
       ("Medium Cirrus Confidence", []);
       ("High Cirrus Confidence",
        [834; 836; 840; 848; 864; 880; 898; 900; 904; 912; 928; 944; 992]);
       ("Terrain Occlusion", [1346; 1348; 1350; 1352])])])].

(** [pixel_flags[band][sensor][condition]]. *)
Definition flag_values (band sensor condition : string) : option (list Z) :=
  b ← dict_get pixel_flags band;
  s ← dict_get b sensor;
  dict_get s condition.

(** Every list of values of the table. *)
Definition table_lists : list (list Z) :=
  b ← pixel_flags.*2; s ← b.*2; s.*2.

(** ** Running a computation *)

Lemma get_array_ok (h : heap) l a :
  h !! l = Some (OArray a) → get_array l h = Return a h.
Proof. intros H. unfold get_array. by rewrite H. Qed.

Lemma get_list_ok (h : heap) l xs :
  h !! l = Some (OList xs) → get_list l h = Return xs h.
Proof. intros H. unfold get_list. by rewrite H. Qed.

Lemma bind_return {A B} (m : M A) (k : A → M B) h a h' :
  m h = Return a h' → bind m k h = k a h'.
Proof. intros H. unfold bind. by rewrite H. Qed.

Lemma bind_raise {A B} (m : M A) (k : A → M B) h e h' :
  m h = Raise e h' → bind m k h = Raise e h'.
Proof. intros H. unfold bind. by rewrite H. Qed.

(** Read the array (or the list) a hypothesis places in the store. *)
Ltac read_array H := rewrite (get_array_ok _ _ _ H); unfold ret at 1.
Ltac read_list H := rewrite (get_list_ok _ _ _ H); unfold ret at 1.

(** ** Sorting and unique values *)

Lemma py_sorted_Sorted xs : Sorted Z.le (py_sorted xs).
Proof. apply (Sorted_merge_sort Z.le). Qed.

Lemma py_sorted_Permutation xs : py_sorted xs ≡ₚ xs.
Proof. apply (merge_sort_Permutation Z.le). Qed.

Lemma elem_of_py_sorted x xs : x ∈ py_sorted xs ↔ x ∈ xs.
Proof. by rewrite py_sorted_Permutation. Qed.

Lemma py_sorted_perm xs ys : xs ≡ₚ ys → py_sorted xs = py_sorted ys.
Proof.
  intros H. apply (Sorted_unique Z.le); try apply py_sorted_Sorted.
  by rewrite !py_sorted_Permutation.
Qed.

Lemma elem_of_drop_repeats x l : x ∈ drop_repeats l ↔ x ∈ l.
Proof.
  induction l as [|y [|z l] IH]; [done..|].
  change (drop_repeats (y :: z :: l))
    with (if y =? z then drop_repeats (z :: l) else y :: drop_repeats (z :: l)).
  destruct (Z.eqb_spec y z) as [->|Hne].
  - rewrite IH, !elem_of_cons. tauto.
  - rewrite !elem_of_cons, IH, elem_of_cons. tauto.
Qed.

Lemma elem_of_np_unique x a : x ∈ np_unique a ↔ x ∈ data a.
Proof.
  unfold np_unique. rewrite elem_of_drop_repeats.
  by rewrite (merge_sort_Permutation Z.le).
Qed.

Lemma existsb_eqb_elem_of (v : Z) (l : list Z) :
  existsb (fun x => x =? v) l = bool_decide (v ∈ l).
Proof.
  induction l as [|x l IH]; simpl; [done|].
  rewrite IH. destruct (Z.eqb_spec x v) as [->|Hne]; simpl.
  - by rewrite bool_decide_eq_true_2 by left.
  - apply bool_decide_ext. rewrite elem_of_cons. split; [auto|].
    intros [->|?]; done.
Qed.

Lemma existsb_id_map {A} (f : A → bool) (l : list A) :
  existsb id (map f l) = existsb f l.
Proof. induction l as [|x l IH]; simpl; [done|]. by rewrite IH. Qed.

(** Against a one-element list the comparison of [vals in mask_vals] is
    a membership test. *)
Lemma eq_1d_singleton (mv : list Z) (v : Z) :
  match eq_1d mv [v] with
  | Some r => existsb id r
  | None => false
  end = bool_decide (v ∈ mv).
Proof.
  rewrite <-existsb_eqb_elem_of. unfold eq_1d. case_bool_decide as Hlen.
  - destruct mv as [|x [|? ?]]; simplify_eq/=. done.
  - destruct mv as [|x [|x' mv]]; apply existsb_id_map.
Qed.

(** ** Boolean arrays *)

Lemma np_any_eq_one M : np_any (np_eq_scalar M 1) = true ↔ 1 ∈ data M.
Proof.
  unfold np_any, np_eq_scalar. simpl. rewrite existsb_exists. split.
  - intros (b & Hb & Hid). apply in_map_iff in Hb as (x & <- & Hx).
    apply Z.eqb_eq in Hid as ->. by apply list_elem_of_In.
  - intros H. exists true. split; [|done].
    apply in_map_iff. exists 1. split; [done|]. by apply list_elem_of_In.
Qed.

Lemma np_any_eq_one_false M : 1 ∉ data M → np_any (np_eq_scalar M 1) = false.
Proof. intros H. apply not_true_is_false. by rewrite np_any_eq_one. Qed.

Lemma zip_orb_absorb_l (a b : list bool) :
  zip_with orb (zip_with orb a b) a = zip_with orb a b.
Proof.
  revert b. induction a as [|x a IH]; intros [|y b]; simpl; try done.
  rewrite IH. by destruct x, y.
Qed.

Lemma zip_orb_absorb_r (a b : list bool) :
  zip_with orb (zip_with orb a b) b = zip_with orb a b.
Proof.
  revert b. induction a as [|x a IH]; intros [|y b]; simpl; try done.
  rewrite IH. by destruct x, y.
Qed.

Lemma zip_orb_diag (a : list bool) : zip_with orb a a = a.
Proof. induction a as [|x a IH]; simpl; [done|]. rewrite IH. by destruct x. Qed.

Lemma np_logical_or_absorb p c :
  shape p = shape c →
  np_logical_or (np_logical_or p c) p = np_logical_or p c.
Proof.
  intros Hs. unfold np_logical_or. simpl. by rewrite zip_orb_absorb_l, Hs.
Qed.

Lemma np_array_equal_astype a :
  np_array_equal a (astype_bool a) = true ↔ binary_valued a.
Proof.
  unfold np_array_equal, astype_bool, binary_valued. simpl.
  rewrite bool_decide_eq_true_2 by done. simpl.
  induction (data a) as [|x xs IH]; simpl.
  - split; [constructor|done].
  - rewrite andb_true_iff, Forall_cons, IH.
    assert ((x =? Z.b2z (negb (x =? 0))) = true ↔ x = 0 ∨ x = 1); [|tauto].
    destruct (Z.eqb_spec x 0) as [->|]; simpl; [|rewrite Z.eqb_eq; lia].
    split; auto.
Qed.

(** ** Broadcasting *)

Lemma length_concat_replicate {A} (n : nat) (l : list A) :
  length (concat (replicate n l)) = (n * length l)%nat.
Proof. induction n as [|n IH]; simpl; [done|]. rewrite length_app, IH. lia. Qed.

Lemma length_concat_uniform {A} (n : nat) (ls : list (list A)) :
  Forall (fun l => length l = n) ls → length (concat ls) = (length ls * n)%nat.
Proof.
  induction 1 as [|l ls Hl _ IH]; simpl; [done|]. rewrite length_app, IH, Hl. lia.
Qed.

Lemma chunks_length {A} (n k : nat) (xs : list A) : length (chunks n k xs) = k.
Proof. revert xs. induction k as [|k IH]; intros xs; simpl; [done|]. by rewrite IH. Qed.

Lemma chunks_uniform {A} (n k : nat) (xs : list A) :
  length xs = (k * n)%nat → Forall (fun l => length l = n) (chunks n k xs).
Proof.
  revert xs. induction k as [|k IH]; intros xs Hlen; simpl; constructor.
  - rewrite length_take. lia.
  - apply IH. rewrite length_drop. lia.
Qed.

Lemma concat_chunks {A} (n k : nat) (xs : list A) :
  length xs = (k * n)%nat → concat (chunks n k xs) = xs.
Proof.
  revert xs. induction k as [|k IH]; intros xs Hlen; simpl.
  - by destruct xs.
  - rewrite IH by (rewrite length_drop; lia). apply take_drop.
Qed.

(** A broadcast array has one element per index of the target shape. *)
Lemma broadcast_data_length {A} (s t : list nat) (xs : list A) :
  broadcastable s t = true → length xs = size_of s →
  length (broadcast_data s t xs) = size_of t.
Proof.
  revert s xs. induction t as [|d t IH]; intros s xs Hb Hlen; simpl in *.
  - apply bool_decide_eq_true in Hb as ->. done.
  - destruct (decide (length s < S (length t))%nat).
    + rewrite length_concat_replicate, (IH s) by done. done.
    + destruct s as [|k s]; [done|].
      apply andb_true_iff in Hb as [Hk Hb]. simpl in Hlen.
      destruct (decide (k = d)) as [->|Hne].
      * rewrite (length_concat_uniform (size_of t)).
        { by rewrite length_map, chunks_length. }
        apply Forall_fmap. eapply Forall_impl; [by apply chunks_uniform|].
        intros l Hl. simpl. by apply IH.
      * rewrite orb_true_iff, !bool_decide_eq_true in Hk.
        destruct Hk as [?| ->]; [done|].
        rewrite length_concat_replicate, (IH s); [done|done|lia].
Qed.

Lemma broadcastable_refl (s : list nat) : broadcastable s s = true.
Proof.
  induction s as [|k s IH]; simpl; [done|].
  destruct (decide _); [lia|]. by rewrite IH, bool_decide_eq_true_2.
Qed.

Lemma broadcastable_scalar (t : list nat) : broadcastable [] t = true.
Proof.
  induction t as [|d t IH]; [done|].
  cbn [broadcastable]. by rewrite decide_True by (simpl; lia).
Qed.

(** Broadcasting to the array's own shape changes nothing. *)
Lemma broadcast_data_refl {A} (s : list nat) (xs : list A) :
  length xs = size_of s → broadcast_data s s xs = xs.
Proof.
  revert xs. induction s as [|k s IH]; intros xs Hlen; simpl in *; [done|].
  destruct (decide _); [lia|]. rewrite decide_True by done.
  rewrite <-(concat_chunks (size_of s) k xs) at 2 by done.
  f_equal. rewrite <-(map_id (chunks _ _ _)) at 2.
  apply map_ext_Forall. eapply Forall_impl; [by apply chunks_uniform|].
  intros l Hl. by apply IH.
Qed.

Lemma np_broadcast_to_shape {A} (a c : ndarray A) shp h h' :
  np_broadcast_to a shp h = Return c h' → shape c = shp ∧ h' = h.
Proof.
  unfold np_broadcast_to, ret, raise. case_match; [|done]. by intros [= <- <-].
Qed.

Lemma np_broadcast_to_same_shape (h : heap) (M : ndarray Z) :
  wf_ndarray M →
  np_broadcast_to (np_eq_scalar M 1) (shape M) h = Return (np_eq_scalar M 1) h.
Proof.
  intros Hwf. unfold np_broadcast_to. simpl.
  rewrite broadcastable_refl, broadcast_data_refl; [done|].
  by rewrite length_map.
Qed.

Example broadcast_row_to_matrix :
  broadcastable [3]%nat [2; 3]%nat = true
  ∧ broadcast_data [3]%nat [2; 3]%nat [5; 6; 7] = [5; 6; 7; 5; 6; 7].
Proof. by split. Qed.

Example broadcast_column_to_matrix :
  broadcastable [2; 1]%nat [2; 3]%nat = true
  ∧ broadcast_data [2; 1]%nat [2; 3]%nat [5; 6] = [5; 5; 5; 6; 6; 6].
Proof. by split. Qed.

Example broadcast_mismatch :
  broadcastable [2]%nat [2; 3]%nat = false
  ∧ broadcastable [2; 3]%nat [3]%nat = false.
Proof. by split. Qed.

(** ** [_create_mask] *)

Lemma setitem_twice (V : list Z) (xs : list Z) :
  let t := map (fun x => bool_decide (x ∈ V)) xs in
  zip_with (fun x (b : bool) => if b then 0 else x)
           (zip_with (fun x (b : bool) => if b then 1 else x) xs t)
           (map negb t)
  = map (fun x => if bool_decide (x ∈ V) then 1 else 0) xs.
Proof.
  induction xs as [|x xs IH]; simpl in *; [done|].
  rewrite IH. by destruct (bool_decide (x ∈ V)).
Qed.

(** The run of [_create_mask] on an array and a list: the list object
    holds the sorted values and the array object holds the mask. *)
Lemma create_mask_run (h : heap) q v Q V :
  h !! q = Some (OArray Q) → h !! v = Some (OList V) →
  _create_mask (Arr q) (PList v) h
  = Return (Arr q)
           (<[q := OArray (membership_mask Q V)]> (<[v := OList (py_sorted V)]> h)).
Proof.
  intros Hq Hv.
  assert (v ≠ q) as Hne by (intros ->; congruence).
  unfold _create_mask, bind, try_except_AttributeError, method_sort, bind.
  rewrite (get_list_ok _ _ _ Hv). simpl.
  unfold put, get_array, get_list.
  rewrite lookup_insert_ne, Hq, lookup_insert_eq by done. simpl.
  unfold setitem_bool, bind, get_array; simpl.
  rewrite lookup_insert_ne, Hq by done.
  rewrite bool_decide_eq_true_2 by done. unfold put.
  rewrite lookup_insert_eq. simpl.
  rewrite bool_decide_eq_true_2 by done.
  unfold ret. f_equal. rewrite insert_insert_eq. f_equal. f_equal.
  unfold membership_mask. f_equal.
  rewrite setitem_twice. apply map_ext. intros x.
  by rewrite (bool_decide_ext _ _ (elem_of_py_sorted x V)).
Qed.

Lemma create_mask_not_array (h : heap) o v V :
  h !! v = Some (OList V) →
  _create_mask (Obj o) (PList v) h
  = Raise InvalidInput (<[v := OList (py_sorted V)]> h).
Proof.
  intros Hv.
  unfold _create_mask, bind, try_except_AttributeError, method_sort, bind.
  rewrite (get_list_ok _ _ _ Hv). simpl. by destruct o.
Qed.

Lemma create_mask_not_list (h : heap) mask_arr o :
  (∀ l, o ≠ PList l) →
  _create_mask mask_arr o h = Raise InvalidInput_values h.
Proof. intros Ho. destruct o; try done. by destruct (Ho l). Qed.

Lemma membership_mask_lookup Q V i x :
  data Q !! i = Some x →
  data (membership_mask Q V) !! i = Some (if bool_decide (x ∈ V) then 1 else 0).
Proof. intros H. simpl. by rewrite list_lookup_fmap, H. Qed.

Lemma membership_mask_perm Q V V' :
  V' ≡ₚ V → membership_mask Q V' = membership_mask Q V.
Proof.
  intros HP. unfold membership_mask. f_equal. apply map_ext. intros x.
  assert (x ∈ V' ↔ x ∈ V) as Hiff by (by rewrite HP).
  by rewrite (bool_decide_ext _ _ Hiff).
Qed.

(** C2: for a QA array [Q] and a list of values [V], [_create_mask]
    returns an array of the shape of [Q] that holds 1 exactly at the
    positions whose QA value is a member of [V] and 0 at every other
    position; a permutation of [V] yields the same mask. *)
Theorem create_mask_membership (h : heap) (q v : loc) (Q : ndarray Z) (V : list Z) :
  h !! q = Some (OArray Q) → h !! v = Some (OList V) →
  ∃ h' B,
    _create_mask (Arr q) (PList v) h = Return (Arr q) h'
    ∧ h' !! q = Some (OArray B)
    ∧ shape B = shape Q
    ∧ length (data B) = length (data Q)
    ∧ (∀ i x, data Q !! i = Some x →
         (x ∈ V → data B !! i = Some 1) ∧ (x ∉ V → data B !! i = Some 0))
    ∧ (∀ V', V' ≡ₚ V →
         ∃ h'', _create_mask (Arr q) (PList v) (<[v := OList V']> h)
                = Return (Arr q) h''
                ∧ h'' !! q = Some (OArray B)).
Proof.
  intros Hq Hv.
  assert (v ≠ q) as Hne by (intros ->; congruence).
  eexists _, (membership_mask Q V). split; [by apply create_mask_run|].
  split; [by rewrite lookup_insert_eq|].
  split; [done|]. split; [by simpl; rewrite length_map|].
  split.
  - intros i x Hi. rewrite (membership_mask_lookup _ _ _ _ Hi).
    split; intros Hx.
    + by rewrite bool_decide_eq_true_2.
    + by rewrite bool_decide_eq_false_2.
  - intros V' HP. eexists. split.
    + apply create_mask_run.
      * by rewrite lookup_insert_ne.
      * by rewrite lookup_insert_eq.
    + by rewrite lookup_insert_eq, (membership_mask_perm _ _ _ HP).
Qed.

Lemma create_mask_membership_witness :
  ∃ h' B,
    _create_mask (Arr mask_loc) (PList vals_loc) qa_store = Return (Arr mask_loc) h'
    ∧ h' !! mask_loc = Some (OArray B)
    ∧ shape B = shape qa_layer
    ∧ length (data B) = length (data qa_layer)
    ∧ (∀ i x, data qa_layer !! i = Some x →
         (x ∈ [96; 1] → data B !! i = Some 1)
         ∧ (x ∉ [96; 1] → data B !! i = Some 0))
    ∧ (∀ V', V' ≡ₚ [96; 1] →
         ∃ h'', _create_mask (Arr mask_loc) (PList vals_loc)
                             (<[vals_loc := OList V']> qa_store)
                = Return (Arr mask_loc) h''
                ∧ h'' !! mask_loc = Some (OArray B)).
Proof.
  apply (create_mask_membership qa_store mask_loc vals_loc qa_layer [96; 1]);
    reflexivity.
Defined.

(** C9: [_create_mask] returns the array object it was given and
    overwrites its buffer: after the call the caller's QA array holds 1
    where its value was in the list and 0 elsewhere, and no QA code other
    than 0 and 1 is left at its position. *)
Theorem create_mask_in_place (h : heap) (q v : loc) (Q : ndarray Z) (V : list Z) :
  h !! q = Some (OArray Q) → h !! v = Some (OList V) →
  ∃ h' B,
    _create_mask (Arr q) (PList v) h = Return (Arr q) h'
    ∧ h' !! q = Some (OArray B)
    ∧ Forall (fun b => b = 0 ∨ b = 1) (data B)
    ∧ (∀ i x, data Q !! i = Some x →
         data B !! i = Some (if bool_decide (x ∈ V) then 1 else 0))
    ∧ (∀ i x, data Q !! i = Some x → x ≠ 0 → x ≠ 1 → data B !! i ≠ Some x).
Proof.
  intros Hq Hv.
  eexists _, (membership_mask Q V). split; [by apply create_mask_run|].
  split; [by rewrite lookup_insert_eq|].
  split; [|split].
  - simpl. apply Forall_fmap, Forall_true. intros x. simpl. case_bool_decide; auto.
  - intros i x Hi. by apply membership_mask_lookup.
  - intros i x Hi H0 H1. rewrite (membership_mask_lookup _ _ _ _ Hi).
    case_bool_decide; congruence.
Qed.

Lemma create_mask_in_place_witness :
  ∃ h' B,
    _create_mask (Arr mask_loc) (PList vals_loc) qa_store = Return (Arr mask_loc) h'
    ∧ h' !! mask_loc = Some (OArray B)
    ∧ Forall (fun b => b = 0 ∨ b = 1) (data B)
    ∧ (∀ i x, data qa_layer !! i = Some x →
         data B !! i = Some (if bool_decide (x ∈ [96; 1]) then 1 else 0))
    ∧ (∀ i x, data qa_layer !! i = Some x → x ≠ 0 → x ≠ 1 → data B !! i ≠ Some x).
Proof.
  apply (create_mask_in_place qa_store mask_loc vals_loc qa_layer [96; 1]);
    reflexivity.
Defined.

Example create_mask_overwrites_qa_layer :
  _create_mask (Arr mask_loc) (PList vals_loc) qa_store
  = Return (Arr mask_loc)
           (store3 bands (mk_ndarray [2; 2]%nat [0; 1; 1; 1]) [1; 96]).
Proof. by vm_compute. Qed.

(** C10: [_create_mask] sorts the list object passed as [vals] before it
    looks at the array: whenever the call gets past the sort, whether it
    then returns or raises, the caller's list is in ascending order. *)
Theorem create_mask_sorts_values (h : heap) (mask_arr : array_arg) (v : loc)
    (V : list Z) :
  h !! v = Some (OList V) → array_in_store h mask_arr →
  ∃ h',
    final_heap (_create_mask mask_arr (PList v) h) = Some h'
    ∧ h' !! v = Some (OList (py_sorted V))
    ∧ Sorted Z.le (py_sorted V)
    ∧ py_sorted V ≡ₚ V
    ∧ (∀ o, mask_arr = Obj o →
         _create_mask mask_arr (PList v) h = Raise InvalidInput h').
Proof.
  intros Hv Hin. destruct mask_arr as [o|q].
  - exists (<[v := OList (py_sorted V)]> h).
    rewrite (create_mask_not_array _ _ _ _ Hv). simpl. rewrite lookup_insert_eq.
    eauto 10 using py_sorted_Sorted, py_sorted_Permutation.
  - destruct Hin as [Q Hq].
    assert (v ≠ q) as Hne by (intros ->; congruence).
    eexists. rewrite (create_mask_run _ _ _ _ _ Hq Hv). simpl.
    split; [done|]. rewrite lookup_insert_ne, lookup_insert_eq by done.
    repeat split; auto using py_sorted_Sorted, py_sorted_Permutation.
    intros o [=].
Qed.

Lemma create_mask_sorts_values_witness :
  ∃ h',
    final_heap (_create_mask (Obj PNone) (PList vals_loc) qa_store) = Some h'
    ∧ h' !! vals_loc = Some (OList (py_sorted [96; 1]))
    ∧ Sorted Z.le (py_sorted [96; 1])
    ∧ py_sorted [96; 1] ≡ₚ [96; 1]
    ∧ (∀ o, Obj PNone = Obj o →
         _create_mask (Obj PNone) (PList vals_loc) qa_store = Raise InvalidInput h').
Proof.
  apply (create_mask_sorts_values qa_store (Obj PNone) vals_loc [96; 1]);
    [reflexivity | exact I].
Defined.

Example create_mask_sorts_before_failing :
  _create_mask (Obj PNone) (PList vals_loc) qa_store
  = Raise InvalidInput (store3 bands qa_layer [1; 96]).
Proof. by vm_compute. Qed.

(** ** [_apply_mask] *)

Lemma apply_mask_no_one (h : heap) arr m M :
  h !! m = Some (OArray M) → 1 ∉ data M →
  _apply_mask arr (Arr m) h = Raise InvalidMask h.
Proof.
  intros Hm H1. unfold _apply_mask, bind, eq_one, bind. read_array Hm.
  by rewrite (np_any_eq_one_false _ H1).
Qed.

Lemma apply_mask_shape_mismatch (h : heap) arr d m D M :
  buffer arr = Some d →
  h !! d = Some (OArray D) → h !! m = Some (OArray M) →
  1 ∈ data M → broadcastable (shape M) (shape D) = false →
  _apply_mask arr (Arr m) h
  = Raise (ValueError "operands could not be broadcast together") h.
Proof.
  intros Hb Hd Hm H1 Hs.
  unfold _apply_mask, bind, eq_one, bind. read_array Hm.
  rewrite (proj2 (np_any_eq_one M) H1). simpl.
  unfold try_except_AttributeError, bind. read_array Hm.
  destruct arr as [o|l'|l' mk]; simplify_eq/=;
    unfold bind; read_array Hd; unfold np_broadcast_to; simpl; by rewrite Hs.
Qed.

Section valid_mask.
(** A data buffer [D], a mask [M] that holds a 1, and [c], the array
    [M == 1] broadcast to the shape of [D]. *)
Context (h : heap) (d m : loc) (D M : ndarray Z) (c : ndarray bool).
Hypothesis Hd : h !! d = Some (OArray D).
Hypothesis Hm : h !! m = Some (OArray M).
Hypothesis H1 : 1 ∈ data M.
Hypothesis Hc : np_broadcast_to (np_eq_scalar M 1) (shape D) h = Return c h.

Lemma cover_shape : shape c = shape D.
Proof. by destruct (np_broadcast_to_shape _ _ _ _ _ Hc). Qed.

Lemma cover_length : wf_ndarray M → length (data c) = size_of (shape D).
Proof.
  intros HM. revert Hc. unfold np_broadcast_to, ret, raise.
  destruct (broadcastable _ _) eqn:Hb; [|done]. intros [= <-]. simpl.
  apply broadcast_data_length; [done|]. by rewrite length_map.
Qed.

Lemma apply_mask_run (arr : data_arg) :
  buffer arr = Some d →
  _apply_mask arr (Arr m) h
  = Return (DMasked d (Some (combined (prior_mask arr) c))) h.
Proof.
  intros Hb. pose proof cover_shape as Hs.
  unfold _apply_mask, bind, eq_one, bind. read_array Hm.
  rewrite (proj2 (np_any_eq_one M) H1). simpl.
  unfold try_except_AttributeError, bind. read_array Hm.
  destruct arr as [o|l|l [p|]]; simplify_eq/=;
    unfold bind; read_array Hd; rewrite Hc;
    unfold ma_masked_array, bind; rewrite (get_array_ok _ _ _ Hd);
    unfold fit_mask; simpl; rewrite ?Hs, bool_decide_eq_true_2 by done; done.
Qed.

(** C3: when the mask [M] holds a 1 and [c] is [M == 1] broadcast to the
    shape of [D], the exclusion flags of the result are [c] for a plain
    array (or a masked array without a mask) and the element-wise or of
    the prior flags with [c] for a masked array; a flag that was set
    stays set. *)
Theorem apply_mask_exclusion :
  _apply_mask (DArr d) (Arr m) h = Return (DMasked d (Some c)) h
  ∧ _apply_mask (DMasked d None) (Arr m) h = Return (DMasked d (Some c)) h
  ∧ ∀ p, shape p = shape D →
      _apply_mask (DMasked d (Some p)) (Arr m) h
      = Return (DMasked d (Some (np_logical_or p c))) h
      ∧ data (np_logical_or p c) = zip_with orb (data p) (data c)
      ∧ (wf_ndarray M → wf_ndarray p →
         ∀ i, data p !! i = Some true → data (np_logical_or p c) !! i = Some true).
Proof.
  pose proof cover_shape as Hs.
  split; [by apply (apply_mask_run (DArr d))|].
  split; [by apply (apply_mask_run (DMasked d None))|].
  intros p Hp. split; [|split; [done|]].
  - rewrite (apply_mask_run (DMasked d (Some p))) by done. simpl.
    rewrite np_logical_or_absorb; [done|congruence].
  - intros HM Hwp i Hi. simpl.
    assert (is_Some (data c !! i)) as [b Hb].
    { apply lookup_lt_is_Some. rewrite (cover_length HM), <-Hp, <-Hwp.
      by apply lookup_lt_Some in Hi. }
    by rewrite lookup_zip_with, Hi, Hb.
Qed.

(** C7: with a mask that holds a 1 and broadcasts to the shape of the
    data, [_apply_mask] leaves the store as it found it and returns a
    masked array over the buffer of its argument: the values of the
    result are the values of [D]. *)
Theorem apply_mask_preserves_values (arr : data_arg) :
  buffer arr = Some d →
  ∃ r h',
    _apply_mask arr (Arr m) h = Return r h'
    ∧ h' = h
    ∧ buffer r = buffer arr
    ∧ values h' r = Some (data D)
    ∧ values h arr = Some (data D).
Proof.
  intros Hb. eexists _, _.
  split; [by apply apply_mask_run|].
  split; [done|]. split; [by rewrite Hb|].
  unfold values. rewrite Hb. simpl. by rewrite Hd.
Qed.

(** C8: applying the same mask to the result of [_apply_mask] returns
    that result again, with the same exclusion flags and the same
    values. *)
Theorem apply_mask_idempotent (arr : data_arg) :
  buffer arr = Some d →
  ∃ r,
    _apply_mask arr (Arr m) h = Return r h
    ∧ _apply_mask r (Arr m) h = Return r h.
Proof.
  intros Hb. eexists.
  split; [by apply apply_mask_run|].
  rewrite apply_mask_run by done.
  do 3 f_equal. simpl.
  destruct (prior_mask arr) as [p|]; unfold combined, np_logical_or; simpl.
  - f_equal. by rewrite !zip_orb_absorb_l, zip_orb_absorb_r.
  - destruct c as [sc dc]. simpl. by rewrite !zip_orb_diag.
Qed.

End valid_mask.

Lemma one_in_qa_layer : 1 ∈ data qa_layer.
Proof. apply list_elem_of_In. simpl. tauto. Defined.

Lemma apply_mask_exclusion_witness :
  _apply_mask (DArr arr_loc) (Arr mask_loc) qa_store
  = Return (DMasked arr_loc (Some band_cover)) qa_store
  ∧ _apply_mask (DMasked arr_loc None) (Arr mask_loc) qa_store
    = Return (DMasked arr_loc (Some band_cover)) qa_store
  ∧ ∀ p, shape p = shape bands →
      _apply_mask (DMasked arr_loc (Some p)) (Arr mask_loc) qa_store
      = Return (DMasked arr_loc (Some (np_logical_or p band_cover))) qa_store
      ∧ data (np_logical_or p band_cover) = zip_with orb (data p) (data band_cover)
      ∧ (wf_ndarray qa_layer → wf_ndarray p →
         ∀ i, data p !! i = Some true →
              data (np_logical_or p band_cover) !! i = Some true).
Proof.
  apply (apply_mask_exclusion qa_store arr_loc mask_loc bands qa_layer band_cover);
    [reflexivity | reflexivity | exact one_in_qa_layer | reflexivity].
Defined.

Lemma apply_mask_preserves_values_witness :
  ∃ r h',
    _apply_mask (DMasked arr_loc (Some band_cover)) (Arr mask_loc) qa_store
    = Return r h'
    ∧ h' = qa_store
    ∧ buffer r = buffer (DMasked arr_loc (Some band_cover))
    ∧ values h' r = Some (data bands)
    ∧ values qa_store (DMasked arr_loc (Some band_cover)) = Some (data bands).
Proof.
  apply (apply_mask_preserves_values qa_store arr_loc mask_loc bands qa_layer
           band_cover);
    [reflexivity | reflexivity | exact one_in_qa_layer | reflexivity | reflexivity].
Defined.

Lemma apply_mask_idempotent_witness :
  ∃ r,
    _apply_mask (DArr arr_loc) (Arr mask_loc) qa_store = Return r qa_store
    ∧ _apply_mask r (Arr mask_loc) qa_store = Return r qa_store.
Proof.
  apply (apply_mask_idempotent qa_store arr_loc mask_loc bands qa_layer band_cover);
    [reflexivity | reflexivity | exact one_in_qa_layer | reflexivity | reflexivity].
Defined.

(** With an array of the shape of the data as the mask, the exclusion
    flags are [M == 1] itself. *)
Lemma apply_mask_same_shape (h : heap) (d m : loc) (D M : ndarray Z) :
  h !! d = Some (OArray D) → h !! m = Some (OArray M) →
  1 ∈ data M → wf_ndarray M → shape M = shape D →
  _apply_mask (DArr d) (Arr m) h = Return (DMasked d (Some (np_eq_scalar M 1))) h.
Proof.
  intros Hd Hm H1 Hwf Hs.
  apply (apply_mask_run h d m D M (np_eq_scalar M 1) Hd Hm H1); [|done].
  rewrite <-Hs. by apply np_broadcast_to_same_shape.
Qed.

(** C6, counterexample: with [None], or a tuple, as the mask,
    [_apply_mask] raises [InvalidMask], not [InvalidInput]. *)
Lemma apply_mask_None_raises_InvalidMask :
  _apply_mask (DArr arr_loc) (Obj PNone) doc_store = Raise InvalidMask doc_store
  ∧ _apply_mask (DArr arr_loc) (Obj (PTuple [1; 0; 1])) doc_store
    = Raise InvalidMask doc_store
  ∧ _apply_mask (DArr arr_loc) (Obj PNone) doc_store ≠ Raise InvalidInput doc_store.
Proof.
  assert (_apply_mask (DArr arr_loc) (Obj PNone) doc_store
          = Raise InvalidMask doc_store) as H by reflexivity.
  split; [exact H|]. split; [reflexivity|]. rewrite H. discriminate.
Qed.

(** C6, as amended: [_apply_mask] raises [InvalidInput] exactly when the
    mask holds a 1 and the data argument is a plain object without a
    shape; a mask argument that is a plain object other than the int 1
    raises [InvalidMask]. *)
Theorem apply_mask_invalid_input (h h' : heap) (arr : data_arg)
    (input_mask : array_arg) :
  (_apply_mask arr input_mask h = Raise InvalidInput h'
   ↔ h' = h ∧ holds_one h input_mask ∧ ∃ p, arr = DObj p)
  ∧ (∀ o, o ≠ PInt 1 → _apply_mask arr (Obj o) h = Raise InvalidMask h).
Proof.
  split; [split|].
  - unfold _apply_mask, ma_masked_array, getattr_shape, np_broadcast_to,
      fit_mask, try_except_AttributeError, eq_one, no_attribute, get_array,
      bind, ret, raise, undefined.
    destruct input_mask as [o|m], arr as [p|l|l mk]; simpl;
      repeat (case_match; simplify_eq/=; try done).
    all: intros [= <-]; split; [done|split; [|by eauto]].
    + apply negb_false_iff in H. unfold np_any in H. simpl in H.
      rewrite orb_false_r in H. apply Z.eqb_eq in H. by subst.
    + eexists. split; [done|]. by apply np_any_eq_one, negb_false_iff.
  - intros (-> & Hone & p & ->).
    unfold _apply_mask, bind, try_except_AttributeError, eq_one, bind.
    destruct input_mask as [o|m]; simpl in *.
    + by subst o.
    + destruct Hone as (M & Hm & H1). read_array Hm.
      rewrite (proj2 (np_any_eq_one M) H1). simpl.
      unfold bind. read_array Hm. by destruct p.
  - intros o Ho. unfold _apply_mask, bind, eq_one.
    destruct o as [|z|xs|l]; simpl; try done.
    destruct (Z.eqb_spec z 1) as [->|]; simpl; done.
Qed.

Lemma apply_mask_invalid_input_witness :
  _apply_mask (DArr arr_loc) (Obj (PList vals_loc)) qa_store
  = Raise InvalidMask qa_store
  ∧ _apply_mask (DObj PNone) (Arr mask_loc) qa_store = Raise InvalidInput qa_store.
Proof.
  split.
  - apply (proj2 (apply_mask_invalid_input qa_store qa_store (DArr arr_loc)
                    (Obj (PList vals_loc)))).
    discriminate.
  - apply (proj1 (apply_mask_invalid_input qa_store qa_store (DObj PNone)
                    (Arr mask_loc))).
    split; [reflexivity|]. split; [|by exists PNone].
    exists qa_layer. split; [reflexivity | exact one_in_qa_layer].
Defined.

(** A data argument without a shape never reaches the constructor of
    the masked array. *)
Lemma apply_mask_plain_object (h : heap) (p : pyobj) (input_mask : array_arg) :
  array_in_store h input_mask →
  ∃ e, _apply_mask (DObj p) input_mask h = Raise e h.
Proof.
  intros Hin. unfold _apply_mask, bind, try_except_AttributeError, eq_one, bind.
  destruct input_mask as [o|m]; simpl in *.
  - destruct o as [|z|xs|l]; simpl; eauto.
    destruct (z =? 1); simpl; eauto; destruct p; simpl; eauto.
  - destruct Hin as [M Hm]. read_array Hm.
    destruct (np_any _); simpl; eauto.
    unfold bind. read_array Hm. destruct p; simpl; eauto.
Qed.

(** The int 1 as the mask is broadcast by numpy: every element is
    excluded. *)
Example apply_mask_scalar_one :
  _apply_mask (DArr arr_loc) (Obj (PInt 1)) doc_store
  = Return (DMasked arr_loc (Some (mk_ndarray [3; 3]%nat (replicate 9 true))))
           doc_store.
Proof. by vm_compute. Qed.

(** ** [mask_pixels] *)

(** Without values the source raises when [np.array_equal] holds. *)
Lemma mask_pixels_prebuilt (h : heap) arr m M vals :
  h !! m = Some (OArray M) → truthy vals h = Return false h →
  mask_pixels arr m vals h
  = if np_array_equal M (astype_bool M) then Raise NotABinaryMask h
    else _apply_mask arr (Arr m) h.
Proof.
  intros Hm Ht. unfold mask_pixels. rewrite (bind_return _ _ _ _ _ Ht).
  unfold bind at 1. unfold bind at 1. rewrite (get_array_ok _ _ _ Hm).
  by destruct (np_array_equal _ _).
Qed.

Lemma mask_pixels_prebuilt_binary (h : heap) arr m M vals :
  h !! m = Some (OArray M) → truthy vals h = Return false h →
  binary_valued M →
  mask_pixels arr m vals h = Raise NotABinaryMask h.
Proof.
  intros Hm Ht HM. rewrite (mask_pixels_prebuilt h arr m M) by done.
  by rewrite (proj2 (np_array_equal_astype M) HM).
Qed.

Lemma mask_pixels_prebuilt_codes (h : heap) arr m M vals :
  h !! m = Some (OArray M) → truthy vals h = Return false h →
  ¬ binary_valued M →
  mask_pixels arr m vals h = _apply_mask arr (Arr m) h.
Proof.
  intros Hm Ht HM. rewrite (mask_pixels_prebuilt h arr m M) by done.
  destruct (np_array_equal _ _) eqn:E; [|done].
  by apply np_array_equal_astype in E.
Qed.

(** With a list of one value the check of [mask_pixels] is the
    membership test the error message speaks of. *)
Lemma mask_pixels_single_value (h : heap) (arr : data_arg) (m l : loc)
    (Q : ndarray Z) (v : Z) :
  h !! m = Some (OArray Q) → h !! l = Some (OList [v]) →
  mask_pixels arr m (PList l) h
  = if bool_decide (v ∈ data Q)
    then bind (_create_mask (Arr m) (PList l)) (_apply_mask arr) h
    else Raise ValueNotFound h.
Proof.
  intros Hm Hl. unfold mask_pixels.
  unfold bind at 1. unfold truthy, bind at 1. read_list Hl. simpl.
  unfold bind at 1. unfold bind at 1. rewrite (get_array_ok _ _ _ Hm).
  unfold bind at 1. unfold ndarray_contains, items, bind at 1. read_list Hl.
  rewrite eq_1d_singleton.
  rewrite (bool_decide_ext _ _ (elem_of_np_unique v Q)).
  by destruct (bool_decide (v ∈ data Q)).
Qed.

Example mask_pixels_docstring :
  mask_pixels (DArr arr_loc) mask_loc (PList vals_loc) doc_store
  = Return (DMasked arr_loc (Some (mk_ndarray [3; 3]%nat
              [true; true; true; false; false; false; true; true; true])))
           doc_store.
Proof. by vm_compute. Qed.

Example mask_pixels_bands :
  mask_pixels (DArr arr_loc) mask_loc (PList vals_loc) band_store
  = Return (DMasked arr_loc (Some band_cover))
           (store3 bands (mk_ndarray [2; 2]%nat [0; 1; 0; 1]) [1]).
Proof. by vm_compute. Qed.

Example mask_pixels_value_999 :
  mask_pixels (DArr arr_loc) mask_loc (PTuple [999]) doc_store
  = Raise ValueNotFound doc_store.
Proof. by vm_compute. Qed.

(** C1: the source raises [NotABinaryMask] for the mask of its own
    docstring, every element of which equals its boolean coercion, and
    hands a QA layer with other codes to [_apply_mask] as the mask: the
    guard is the reverse of the one the claim states. *)
Theorem mask_pixels_rejects_binary_mask :
  binary_valued im_mask
  ∧ mask_pixels (DArr arr_loc) mask_loc PNone doc_store
    = Raise NotABinaryMask doc_store
  ∧ ¬ binary_valued qa_layer
  ∧ mask_pixels (DArr arr_loc) mask_loc PNone band_store
    = _apply_mask (DArr arr_loc) (Arr mask_loc) band_store
  ∧ mask_pixels (DArr arr_loc) mask_loc PNone band_store
    = Return (DMasked arr_loc (Some band_cover)) band_store.
Proof.
  split; [by apply np_array_equal_astype|].
  split; [by vm_compute|].
  split; [by rewrite <-np_array_equal_astype|].
  split; by vm_compute.
Qed.

(** C4: the test [vals not in mask_vals] compares the list with the
    unique values position by position.  With QA values 1, 2 and the
    list [2, 1] every value occurs and the call raises [ValueNotFound];
    with QA values 1, 2, 3 and the list [1, 999, 3] the value 999 occurs
    nowhere and the call returns. *)
Theorem mask_pixels_value_check_positional :
  mask_pixels (DArr arr_loc) mask_loc (PList vals_loc) swapped_store
  = Raise ValueNotFound swapped_store
  ∧ mask_pixels (DArr arr_loc) mask_loc (PList vals_loc) absent_store
    = Return (DMasked arr_loc (Some (mk_ndarray [3]%nat [true; false; true])))
             (store3 (mk_ndarray [3]%nat [7; 8; 9]) (mk_ndarray [3]%nat [1; 0; 1])
                     [1; 3; 999]).
Proof. split; by vm_compute. Qed.

(** C5: a mask with no element equal to 1 makes [_apply_mask] raise
    [InvalidMask], whatever the data; [mask_pixels] called with such a
    mask and no values raises as well and returns nothing. *)
Theorem apply_mask_requires_one (h : heap) (arr : data_arg) (m : loc)
    (M : ndarray Z) (vals : pyobj) :
  h !! m = Some (OArray M) → 1 ∉ data M →
  truthy vals h = Return false h →
  _apply_mask arr (Arr m) h = Raise InvalidMask h
  ∧ ∃ e, mask_pixels arr m vals h = Raise e h
         ∧ (e = InvalidMask ∨ e = NotABinaryMask).
Proof.
  intros Hm H1 Ht. split; [by apply (apply_mask_no_one h arr m M)|].
  rewrite (mask_pixels_prebuilt h arr m M) by done.
  destruct (np_array_equal _ _); [eauto|].
  rewrite (apply_mask_no_one h arr m M) by done. eauto.
Qed.

Lemma one_not_in_zeros : 1 ∉ data zeros.
Proof.
  intros H. apply list_elem_of_In in H. simpl in H. intuition discriminate.
Defined.

Lemma apply_mask_requires_one_witness :
  _apply_mask (DArr arr_loc) (Arr mask_loc) zero_store = Raise InvalidMask zero_store
  ∧ ∃ e, mask_pixels (DArr arr_loc) mask_loc PNone zero_store = Raise e zero_store
         ∧ (e = InvalidMask ∨ e = NotABinaryMask).
Proof.
  apply (apply_mask_requires_one zero_store (DArr arr_loc) mask_loc zeros PNone);
    [reflexivity | exact one_not_in_zeros | reflexivity].
Defined.

(** An all-zero mask without values is stopped by the guard of
    [mask_pixels]; a QA layer without a 1 reaches [_apply_mask]. *)
Example mask_pixels_all_zero :
  mask_pixels (DArr arr_loc) mask_loc PNone zero_store
  = Raise NotABinaryMask zero_store.
Proof. by vm_compute. Qed.

Example mask_pixels_no_one :
  mask_pixels (DArr arr_loc) mask_loc PNone
              (store3 bands (mk_ndarray [2; 2]%nat [66; 0; 96; 0]) [])
  = Raise InvalidMask (store3 bands (mk_ndarray [2; 2]%nat [66; 0; 96; 0]) []).
Proof. by vm_compute. Qed.

Lemma existsb_zip_eqb (a b : list Z) :
  existsb id (zip_with Z.eqb a b) = true → ∃ v, v ∈ a ∧ v ∈ b.
Proof.
  revert b. induction a as [|x a IH]; intros [|y b]; simpl; try done.
  rewrite orb_true_iff. intros [Hxy|Hrest].
  - apply Z.eqb_eq in Hxy as ->. exists y. split; left.
  - destruct (IH b Hrest) as (v & Ha & Hb). exists v. split; by right.
Qed.

Lemma eq_1d_common (a b : list Z) :
  match eq_1d a b with
  | Some r => existsb id r
  | None => false
  end = true → ∃ v, v ∈ a ∧ v ∈ b.
Proof.
  unfold eq_1d. case_bool_decide as Hlen; [apply existsb_zip_eqb|].
  destruct a as [|x [|x' a]], b as [|y [|y' b]]; simpl; try done.
  all: rewrite ?existsb_id_map, ?orb_false_r, ?orb_true_iff, ?existsb_exists.
  - intros [H|[H|(z & Hz & H)]]; apply Z.eqb_eq in H; subst.
    + exists y. split; [left|left].
    + exists y'. split; [left|right; left].
    + exists z. split; [left|]. right; right. by apply list_elem_of_In.
  - intros [H|[H|(z & Hz & H)]]; apply Z.eqb_eq in H; subst.
    + exists y. split; [left|left].
    + exists y. split; [right; left|left].
    + exists y. split; [|left]. right; right. by apply list_elem_of_In.
Qed.

Lemma values_found_common Q V :
  values_found Q V = true → ∃ v, v ∈ data Q ∧ v ∈ V.
Proof.
  intros H. apply eq_1d_common in H as (v & Hq & Hv).
  exists v. split; [by apply elem_of_np_unique|done].
Qed.

Lemma mask_pixels_value_mode (h : heap) arr m l Q V :
  h !! m = Some (OArray Q) → h !! l = Some (OList V) → V ≠ [] →
  mask_pixels arr m (PList l) h
  = if values_found Q V
    then bind (_create_mask (Arr m) (PList l)) (_apply_mask arr) h
    else Raise ValueNotFound h.
Proof.
  intros Hm Hl HV. unfold mask_pixels.
  unfold bind at 1. unfold truthy, bind at 1. read_list Hl.
  rewrite bool_decide_eq_false_2 by done. simpl.
  unfold bind at 1. unfold bind at 1. rewrite (get_array_ok _ _ _ Hm).
  unfold bind at 1. unfold ndarray_contains, items, bind at 1. read_list Hl.
  fold (values_found Q V). by destruct (values_found Q V).
Qed.

Lemma membership_mask_one Q V :
  1 ∈ data (membership_mask Q V) ↔ ∃ x, x ∈ data Q ∧ x ∈ V.
Proof.
  unfold membership_mask. simpl. rewrite list_elem_of_fmap. split.
  - intros (x & Hx & Hin). exists x. split; [done|].
    by case_bool_decide.
  - intros (x & Hin & Hx). exists x. by rewrite bool_decide_eq_true_2.
Qed.

Lemma membership_mask_binary Q V : binary_valued (membership_mask Q V).
Proof.
  unfold binary_valued. simpl. apply Forall_fmap, Forall_true.
  intros x. simpl. case_bool_decide; auto.
Qed.

(** ** More on [_apply_mask] *)

(** [_apply_mask] only reads the store. *)
Lemma apply_mask_frame (h h' : heap) arr input_mask :
  final_heap (_apply_mask arr input_mask h) = Some h' → h' = h.
Proof.
  unfold _apply_mask, ma_masked_array, getattr_shape, np_broadcast_to,
    fit_mask, try_except_AttributeError, eq_one, no_attribute, get_array,
    bind, ret, raise, undefined.
  destruct input_mask as [o|m], arr as [p|l|l mk]; simpl;
    repeat (case_match; simplify_eq/=; try done); by intros [= <-].
Qed.

(** X1: [_apply_mask] never writes to the store: whether it returns or
    raises, for any arguments, the store at the end is the store at the
    start. *)
Theorem apply_mask_never_writes (h : heap) (arr : data_arg) (input_mask : array_arg) :
  _apply_mask arr input_mask h = Undefined
  ∨ final_heap (_apply_mask arr input_mask h) = Some h.
Proof.
  destruct (_apply_mask arr input_mask h) as [r h'|e h'|] eqn:E; [right..|by left].
  - simpl. f_equal. apply (apply_mask_frame h h' arr input_mask). by rewrite E.
  - simpl. f_equal. apply (apply_mask_frame h h' arr input_mask). by rewrite E.
Qed.

(** X2: a mask with a 1 whose shape does not broadcast to the shape of
    the data is refused by numpy with a [ValueError] of its own, which
    the source does not catch: neither [InvalidMask] nor
    [InvalidInput]. *)
Theorem apply_mask_rejects_shape (h : heap) (arr : data_arg) (d m : loc)
    (D M : ndarray Z) :
  buffer arr = Some d →
  h !! d = Some (OArray D) → h !! m = Some (OArray M) →
  1 ∈ data M → broadcastable (shape M) (shape D) = false →
  _apply_mask arr (Arr m) h
  = Raise (ValueError "operands could not be broadcast together") h.
Proof. apply apply_mask_shape_mismatch. Qed.

Lemma apply_mask_rejects_shape_witness :
  _apply_mask (DArr arr_loc) (Arr mask_loc) (store3 im short_mask [])
  = Raise (ValueError "operands could not be broadcast together")
          (store3 im short_mask []).
Proof.
  apply (apply_mask_rejects_shape (store3 im short_mask []) (DArr arr_loc)
           arr_loc mask_loc im short_mask);
    [reflexivity | reflexivity | reflexivity | | reflexivity].
  apply list_elem_of_In. simpl. tauto.
Defined.

(** X3: with a well-formed mask array of the very shape of the data,
    the exclusion flags of the result are [M == 1], element for
    element. *)
Theorem apply_mask_flags_same_shape (h : heap) (d m : loc) (D M : ndarray Z) :
  h !! d = Some (OArray D) → h !! m = Some (OArray M) →
  1 ∈ data M → wf_ndarray M → shape M = shape D →
  _apply_mask (DArr d) (Arr m) h
  = Return (DMasked d (Some (mk_ndarray (shape D)
                               (map (fun x => x =? 1) (data M))))) h.
Proof.
  intros Hd Hm H1 Hwf Hs.
  rewrite (apply_mask_same_shape h d m D M) by done.
  unfold np_eq_scalar. by rewrite Hs.
Qed.

Lemma one_in_im_mask : 1 ∈ data im_mask.
Proof. apply list_elem_of_In. simpl. tauto. Defined.

Lemma apply_mask_flags_same_shape_witness :
  _apply_mask (DArr arr_loc) (Arr mask_loc) doc_store
  = Return (DMasked arr_loc (Some (mk_ndarray (shape im)
                                     (map (fun x => x =? 1) (data im_mask)))))
           doc_store.
Proof.
  apply (apply_mask_flags_same_shape doc_store arr_loc mask_loc im im_mask);
    [reflexivity | reflexivity | exact one_in_im_mask | reflexivity | reflexivity].
Defined.

Lemma concat_replicate_replicate {A} (n k : nat) (x : A) :
  concat (replicate n (replicate k x)) = replicate (n * k) x.
Proof.
  induction n as [|n IH]; simpl; [done|]. by rewrite IH, replicate_add.
Qed.

Lemma broadcast_data_scalar {A} (t : list nat) (x : A) :
  broadcast_data [] t [x] = replicate (size_of t) x.
Proof.
  induction t as [|d t IH]; [done|].
  cbn [broadcast_data]. rewrite decide_True by (simpl; lia).
  rewrite IH. apply concat_replicate_replicate.
Qed.

(** X4: the int 1 passed as the mask is accepted: [1 == 1] is [True],
    numpy broadcasts it, and every element of the data is excluded. *)
Theorem apply_mask_scalar_one_excludes_all (h : heap) (d : loc) (D : ndarray Z) :
  h !! d = Some (OArray D) →
  _apply_mask (DArr d) (Obj (PInt 1)) h
  = Return (DMasked d (Some (mk_ndarray (shape D)
                               (replicate (size_of (shape D)) true)))) h.
Proof.
  intros Hd. unfold _apply_mask, bind, try_except_AttributeError, eq_one. simpl.
  unfold bind. read_array Hd. unfold np_broadcast_to. simpl.
  rewrite broadcastable_scalar. unfold ret at 1.
  rewrite (get_array_ok _ _ _ Hd). unfold fit_mask. simpl.
  rewrite bool_decide_eq_true_2 by done.
  by rewrite broadcast_data_scalar.
Qed.

Lemma apply_mask_scalar_one_excludes_all_witness :
  _apply_mask (DArr arr_loc) (Obj (PInt 1)) qa_store
  = Return (DMasked arr_loc (Some (mk_ndarray (shape bands)
                                     (replicate (size_of (shape bands)) true))))
           qa_store.
Proof.
  apply (apply_mask_scalar_one_excludes_all qa_store arr_loc bands). reflexivity.
Defined.

Lemma zip_orb_comm (a b : list bool) : zip_with orb a b = zip_with orb b a.
Proof.
  revert b. induction a as [|x a IH]; intros [|y b]; simpl; try done.
  by rewrite IH, orb_comm.
Qed.

Lemma zip_orb_swap (a b c : list bool) :
  zip_with orb (zip_with orb a b) c = zip_with orb (zip_with orb a c) b.
Proof.
  revert b c. induction a as [|x a IH]; intros [|y b] [|z c]; simpl; try done.
  rewrite IH. f_equal. by destruct x, y, z.
Qed.

Lemma combined_twice prior c1 c2 :
  shape c1 = shape c2 →
  combined (Some (combined prior c1)) c2 = combined (Some (combined prior c2)) c1.
Proof.
  intros Hs. destruct prior as [p|]; unfold combined, np_logical_or; simpl.
  - f_equal. rewrite !zip_orb_absorb_l. apply zip_orb_swap.
  - rewrite Hs. f_equal. rewrite !zip_orb_absorb_l. apply zip_orb_comm.
Qed.

(** X5: two masks may be applied in either order: applying [M1] and
    then [M2] returns the masked array that applying [M2] and then [M1]
    returns. *)
Theorem apply_mask_commutes (h : heap) (arr : data_arg) (d m1 m2 : loc)
    (D M1 M2 : ndarray Z) (c1 c2 : ndarray bool) :
  buffer arr = Some d →
  h !! d = Some (OArray D) →
  h !! m1 = Some (OArray M1) → h !! m2 = Some (OArray M2) →
  1 ∈ data M1 → 1 ∈ data M2 →
  np_broadcast_to (np_eq_scalar M1 1) (shape D) h = Return c1 h →
  np_broadcast_to (np_eq_scalar M2 1) (shape D) h = Return c2 h →
  ∃ r1 r2 r,
    _apply_mask arr (Arr m1) h = Return r1 h
    ∧ _apply_mask r1 (Arr m2) h = Return r h
    ∧ _apply_mask arr (Arr m2) h = Return r2 h
    ∧ _apply_mask r2 (Arr m1) h = Return r h.
Proof.
  intros Hb Hd Hm1 Hm2 H1 H2 Hc1 Hc2.
  pose proof (cover_shape h D M1 c1 Hc1) as Hs1.
  pose proof (cover_shape h D M2 c2 Hc2) as Hs2.
  eexists _, _, _.
  split; [by apply (apply_mask_run h d m1 D M1 c1)|].
  split; [by apply (apply_mask_run h d m2 D M2 c2)|].
  split; [by apply (apply_mask_run h d m2 D M2 c2)|].
  rewrite (apply_mask_run h d m1 D M1 c1) by done. cbn [prior_mask].
  rewrite (combined_twice _ c2 c1); [done|congruence].
Qed.

Lemma one_in_rows_mask : 1 ∈ data rows_mask.
Proof. apply list_elem_of_In. simpl. tauto. Defined.

Lemma apply_mask_commutes_witness :
  ∃ r1 r2 r,
    _apply_mask (DArr arr_loc) (Arr mask_loc) two_masks_store
    = Return r1 two_masks_store
    ∧ _apply_mask r1 (Arr 4%positive) two_masks_store = Return r two_masks_store
    ∧ _apply_mask (DArr arr_loc) (Arr 4%positive) two_masks_store
      = Return r2 two_masks_store
    ∧ _apply_mask r2 (Arr mask_loc) two_masks_store = Return r two_masks_store.
Proof.
  apply (apply_mask_commutes two_masks_store (DArr arr_loc) arr_loc mask_loc
           4%positive bands qa_layer rows_mask band_cover rows_cover);
    [reflexivity | reflexivity | reflexivity | reflexivity
    | exact one_in_qa_layer | exact one_in_rows_mask | reflexivity | reflexivity].
Defined.

(** X6: the masked array [_apply_mask] returns is well formed: its mask
    has the shape of the data and one flag per element of that shape, so
    the result can be masked again. *)
Theorem apply_mask_result_well_formed (h : heap) (arr : data_arg) (d m : loc)
    (D M : ndarray Z) (c : ndarray bool) :
  buffer arr = Some d →
  h !! d = Some (OArray D) → h !! m = Some (OArray M) →
  1 ∈ data M → wf_ndarray M →
  np_broadcast_to (np_eq_scalar M 1) (shape D) h = Return c h →
  wf_masked D (prior_mask arr) →
  ∃ f, _apply_mask arr (Arr m) h = Return (DMasked d (Some f)) h
       ∧ wf_masked D (Some f).
Proof.
  intros Hb Hd Hm H1 HM Hc Hp.
  pose proof (cover_shape h D M c Hc) as Hs.
  pose proof (cover_length h D M c Hc HM) as Hlen.
  eexists. split; [by apply (apply_mask_run h d m D M c)|].
  destruct (prior_mask arr) as [p|]; simpl in *.
  - destruct Hp as [Hsp Hwp]. split; [done|].
    unfold wf_ndarray in *. simpl.
    rewrite !length_zip_with, Hlen, Hwp, Hsp. lia.
  - split; [done|]. unfold wf_ndarray. by rewrite Hs.
Qed.

Lemma apply_mask_result_well_formed_witness :
  ∃ f, _apply_mask (DMasked arr_loc (Some rows_cover)) (Arr mask_loc) qa_store
       = Return (DMasked arr_loc (Some f)) qa_store
       ∧ wf_masked bands (Some f).
Proof.
  apply (apply_mask_result_well_formed qa_store (DMasked arr_loc (Some rows_cover))
           arr_loc mask_loc bands qa_layer band_cover);
    [reflexivity | reflexivity | reflexivity | exact one_in_qa_layer
    | reflexivity | reflexivity | split; reflexivity].
Defined.

(** ** More on [_create_mask] *)

(** X7: anything but a list as [vals] (a tuple, an int, [None]) is
    refused with [InvalidInput_values] before the QA array is looked at,
    and nothing in the store changes. *)
Theorem create_mask_requires_list (h : heap) (mask_arr : array_arg) (o : pyobj) :
  (∀ l, o ≠ PList l) →
  _create_mask mask_arr o h = Raise InvalidInput_values h.
Proof. apply create_mask_not_list. Qed.

Lemma create_mask_requires_list_witness :
  _create_mask (Arr mask_loc) (PTuple [96; 1]) qa_store
  = Raise InvalidInput_values qa_store.
Proof.
  apply (create_mask_requires_list qa_store (Arr mask_loc) (PTuple [96; 1])).
  discriminate.
Defined.

Lemma py_sorted_nil : py_sorted [] = [].
Proof. reflexivity. Qed.

Lemma py_sorted_singleton v : py_sorted [v] = [v].
Proof. reflexivity. Qed.

(** X8: with an empty list [_create_mask] overwrites the whole QA array
    with 0, and the mask it returns is then refused by [_apply_mask]
    with [InvalidMask]. *)
Theorem create_mask_empty_list (h : heap) (arr : data_arg) (q v : loc)
    (Q : ndarray Z) :
  h !! q = Some (OArray Q) → h !! v = Some (OList []) →
  ∃ h',
    _create_mask (Arr q) (PList v) h = Return (Arr q) h'
    ∧ h' !! q = Some (OArray (mk_ndarray (shape Q)
                                (replicate (length (data Q)) 0)))
    ∧ _apply_mask arr (Arr q) h' = Raise InvalidMask h'.
Proof.
  intros Hq Hv. eexists. split; [by apply create_mask_run|].
  assert (membership_mask Q [] = mk_ndarray (shape Q) (replicate (length (data Q)) 0))
    as ->.
  { unfold membership_mask. f_equal.
    induction (data Q) as [|x xs IH]; [done|].
    cbn [map length replicate]. by rewrite IH. }
  split; [by rewrite lookup_insert_eq|].
  eapply apply_mask_no_one; [by rewrite lookup_insert_eq|].
  simpl. intros [H _]%elem_of_replicate. done.
Qed.

Lemma create_mask_empty_list_witness :
  ∃ h',
    _create_mask (Arr mask_loc) (PList vals_loc) (store3 bands qa_layer [])
    = Return (Arr mask_loc) h'
    ∧ h' !! mask_loc = Some (OArray (mk_ndarray (shape qa_layer)
                                (replicate (length (data qa_layer)) 0)))
    ∧ _apply_mask (DArr arr_loc) (Arr mask_loc) h' = Raise InvalidMask h'.
Proof.
  apply (create_mask_empty_list (store3 bands qa_layer []) (DArr arr_loc)
           mask_loc vals_loc qa_layer); reflexivity.
Defined.

Lemma membership_mask_binary_id Q :
  binary_valued Q → membership_mask Q [1] = Q.
Proof.
  destruct Q as [s xs]. unfold binary_valued, membership_mask. simpl.
  intros H. f_equal. induction H as [|x xs Hx _ IH]; simpl; [done|].
  rewrite IH. f_equal. destruct Hx as [-> | ->]; by vm_compute.
Qed.

(** X9: on an array that already is a 0/1 mask, [_create_mask] with the
    list [[1]] changes nothing: it returns the same array with the same
    contents, and the store is as before. *)
Theorem create_mask_binary_fixed_point (h : heap) (q v : loc) (Q : ndarray Z) :
  h !! q = Some (OArray Q) → h !! v = Some (OList [1]) →
  binary_valued Q →
  _create_mask (Arr q) (PList v) h = Return (Arr q) h.
Proof.
  intros Hq Hv HQ. rewrite (create_mask_run h q v Q [1]) by done.
  rewrite membership_mask_binary_id, py_sorted_singleton by done.
  f_equal. rewrite (insert_id h v) by done. by apply insert_id.
Qed.

Lemma im_mask_binary : binary_valued im_mask.
Proof. by apply np_array_equal_astype. Defined.

Lemma create_mask_binary_fixed_point_witness :
  _create_mask (Arr mask_loc) (PList vals_loc) doc_store
  = Return (Arr mask_loc) doc_store.
Proof.
  apply (create_mask_binary_fixed_point doc_store mask_loc vals_loc im_mask);
    [reflexivity | reflexivity | exact im_mask_binary].
Defined.

(** ** More on [mask_pixels] *)

Lemma eq_scalar_membership Q V :
  np_eq_scalar (membership_mask Q V) 1 = np_isin Q V.
Proof.
  unfold np_eq_scalar, membership_mask, np_isin. simpl. f_equal.
  rewrite map_map. apply map_ext. intros x. by case_bool_decide.
Qed.

Lemma membership_mask_wf Q V : wf_ndarray Q → wf_ndarray (membership_mask Q V).
Proof. unfold wf_ndarray. simpl. by rewrite length_map. Qed.

Lemma mask_pixels_found (h : heap) arr m l Q V :
  h !! m = Some (OArray Q) → h !! l = Some (OList V) → V ≠ [] →
  values_found Q V = true →
  mask_pixels arr m (PList l) h
  = _apply_mask arr (Arr m) (after_create_mask h m l Q V)
  ∧ 1 ∈ data (membership_mask Q V).
Proof.
  intros Hm Hl HV Hf. rewrite (mask_pixels_value_mode h arr m l Q V) by done.
  rewrite Hf. split.
  - by rewrite (bind_return _ _ _ _ _ (create_mask_run h m l Q V Hm Hl)).
  - apply membership_mask_one. by apply values_found_common.
Qed.

(** X10: without values ([vals] omitted, empty, or otherwise falsy)
    [mask_pixels] raises [NotABinaryMask] when every element of the mask
    array is 0 or 1, and otherwise behaves as [_apply_mask] on the array
    as it is. *)
Theorem mask_pixels_without_values (h : heap) (arr : data_arg) (m : loc)
    (M : ndarray Z) (vals : pyobj) :
  h !! m = Some (OArray M) → truthy vals h = Return false h →
  (binary_valued M → mask_pixels arr m vals h = Raise NotABinaryMask h)
  ∧ (¬ binary_valued M → mask_pixels arr m vals h = _apply_mask arr (Arr m) h).
Proof.
  intros Hm Ht. split; intros HM.
  - by apply (mask_pixels_prebuilt_binary h arr m M).
  - by apply (mask_pixels_prebuilt_codes h arr m M).
Qed.

Lemma mask_pixels_without_values_witness :
  (binary_valued qa_layer →
   mask_pixels (DArr arr_loc) mask_loc (PList vals_loc) (store3 bands qa_layer [])
   = Raise NotABinaryMask (store3 bands qa_layer []))
  ∧ (¬ binary_valued qa_layer →
     mask_pixels (DArr arr_loc) mask_loc (PList vals_loc) (store3 bands qa_layer [])
     = _apply_mask (DArr arr_loc) (Arr mask_loc) (store3 bands qa_layer [])).
Proof.
  apply (mask_pixels_without_values (store3 bands qa_layer []) (DArr arr_loc)
           mask_loc qa_layer (PList vals_loc)); reflexivity.
Defined.

(** X11: with a list of one value the check of [mask_pixels] is a
    membership test: a value that occurs nowhere in the QA array raises
    [ValueNotFound] and leaves the store alone; a value that occurs
    makes the call overwrite the QA array with the mask and apply it. *)
Theorem mask_pixels_one_value (h : heap) (arr : data_arg) (m l : loc)
    (Q : ndarray Z) (v : Z) :
  h !! m = Some (OArray Q) → h !! l = Some (OList [v]) →
  (v ∉ data Q → mask_pixels arr m (PList l) h = Raise ValueNotFound h)
  ∧ (v ∈ data Q →
     mask_pixels arr m (PList l) h
     = _apply_mask arr (Arr m) (<[m := OArray (membership_mask Q [v])]> h)).
Proof.
  intros Hm Hl. rewrite (mask_pixels_single_value h arr m l Q v) by done.
  split; intros Hv.
  - by rewrite bool_decide_eq_false_2.
  - rewrite bool_decide_eq_true_2 by done.
    rewrite (bind_return _ _ _ _ _ (create_mask_run h m l Q [v] Hm Hl)).
    by rewrite py_sorted_singleton, (insert_id h l).
Qed.

Lemma mask_pixels_one_value_witness :
  (1 ∉ data qa_layer →
   mask_pixels (DArr arr_loc) mask_loc (PList vals_loc) band_store
   = Raise ValueNotFound band_store)
  ∧ (1 ∈ data qa_layer →
     mask_pixels (DArr arr_loc) mask_loc (PList vals_loc) band_store
     = _apply_mask (DArr arr_loc) (Arr mask_loc)
         (<[mask_loc := OArray (membership_mask qa_layer [1])]> band_store)).
Proof.
  apply (mask_pixels_one_value band_store (DArr arr_loc) mask_loc vals_loc
           qa_layer 1); reflexivity.
Defined.

Lemma mask_pixels_absent (h : heap) (arr : data_arg) (m l : loc)
    (Q : ndarray Z) (V : list Z) :
  h !! m = Some (OArray Q) → h !! l = Some (OList V) → V ≠ [] →
  Forall (fun v => v ∉ data Q) V →
  mask_pixels arr m (PList l) h = Raise ValueNotFound h.
Proof.
  intros Hm Hl HV Hno. rewrite (mask_pixels_value_mode h arr m l Q V) by done.
  destruct (values_found Q V) eqn:Hf; [|done].
  apply values_found_common in Hf as (v & Hq & Hv).
  rewrite Forall_forall in Hno. by destruct (Hno v Hv).
Qed.

(** X12: when none of the requested values occurs in the QA array,
    [mask_pixels] raises [ValueNotFound]; the QA array is not
    overwritten and the list is not sorted. *)
Theorem mask_pixels_no_value_occurs (h : heap) (arr : data_arg) (m l : loc)
    (Q : ndarray Z) (V : list Z) :
  h !! m = Some (OArray Q) → h !! l = Some (OList V) → V ≠ [] →
  Forall (fun v => v ∉ data Q) V →
  mask_pixels arr m (PList l) h = Raise ValueNotFound h.
Proof. apply mask_pixels_absent. Qed.

Lemma mask_pixels_no_value_occurs_witness :
  mask_pixels (DArr arr_loc) mask_loc (PList vals_loc)
              (store3 bands qa_layer [999; 7])
  = Raise ValueNotFound (store3 bands qa_layer [999; 7]).
Proof.
  apply (mask_pixels_no_value_occurs (store3 bands qa_layer [999; 7])
           (DArr arr_loc) mask_loc vals_loc qa_layer [999; 7]);
    [reflexivity | reflexivity | discriminate |].
  apply (bool_decide_unpack _). by vm_compute.
Defined.

Lemma mask_pixels_value_mode_cases (h : heap) (d m l : loc)
    (D Q : ndarray Z) (V : list Z) :
  h !! d = Some (OArray D) → h !! m = Some (OArray Q) →
  h !! l = Some (OList V) → V ≠ [] → d ≠ m →
  (values_found Q V = false
   ∧ mask_pixels (DArr d) m (PList l) h = Raise ValueNotFound h)
  ∨ (values_found Q V = true
     ∧ broadcastable (shape Q) (shape D) = false
     ∧ mask_pixels (DArr d) m (PList l) h
       = Raise (ValueError "operands could not be broadcast together")
               (after_create_mask h m l Q V))
  ∨ (values_found Q V = true
     ∧ broadcastable (shape Q) (shape D) = true
     ∧ mask_pixels (DArr d) m (PList l) h
       = Return (DMasked d (Some (mk_ndarray (shape D)
                   (broadcast_data (shape Q) (shape D) (data (np_isin Q V))))))
                (after_create_mask h m l Q V)).
Proof.
  intros Hd Hm Hl HV Hdm.
  assert (d ≠ l) as Hdl by (intros ->; congruence).
  destruct (values_found Q V) eqn:Hf.
  - right. destruct (mask_pixels_found h (DArr d) m l Q V Hm Hl HV Hf) as [-> H1].
    assert (after_create_mask h m l Q V !! d = Some (OArray D)) as Hd'.
    { unfold after_create_mask. by rewrite !lookup_insert_ne. }
    assert (after_create_mask h m l Q V !! m = Some (OArray (membership_mask Q V)))
      as Hm' by apply lookup_insert_eq.
    destruct (broadcastable (shape Q) (shape D)) eqn:Hb; [right|left].
    + split; [done|]. split; [done|].
      rewrite (apply_mask_run _ d m D (membership_mask Q V)
                 (mk_ndarray (shape D)
                    (broadcast_data (shape Q) (shape D) (data (np_isin Q V))))
                 Hd' Hm' H1); [done| |done].
      rewrite eq_scalar_membership. unfold np_broadcast_to. simpl. by rewrite Hb.
    + split; [done|]. split; [done|].
      by apply (apply_mask_shape_mismatch _ _ d m D (membership_mask Q V)).
  - left. split; [done|].
    by rewrite (mask_pixels_value_mode h (DArr d) m l Q V), Hf.
Qed.

(** X13: with a non-empty list of values, a plain data array and a
    distinct QA array, [mask_pixels] ends in one of three ways:
    [ValueNotFound] with the store untouched; numpy's [ValueError] when
    the QA array does not broadcast to the data, after the QA array has
    been overwritten; or a masked array whose flags are the membership
    test of the QA values, broadcast to the data.  It never raises
    [InvalidMask]: a mask that passed the check holds a 1. *)
Theorem mask_pixels_value_mode_outcomes (h : heap) (d m l : loc)
    (D Q : ndarray Z) (V : list Z) :
  h !! d = Some (OArray D) → h !! m = Some (OArray Q) →
  h !! l = Some (OList V) → V ≠ [] → d ≠ m →
  (values_found Q V = false
   ∧ mask_pixels (DArr d) m (PList l) h = Raise ValueNotFound h)
  ∨ (values_found Q V = true
     ∧ broadcastable (shape Q) (shape D) = false
     ∧ mask_pixels (DArr d) m (PList l) h
       = Raise (ValueError "operands could not be broadcast together")
               (after_create_mask h m l Q V))
  ∨ (values_found Q V = true
     ∧ broadcastable (shape Q) (shape D) = true
     ∧ mask_pixels (DArr d) m (PList l) h
       = Return (DMasked d (Some (mk_ndarray (shape D)
                   (broadcast_data (shape Q) (shape D) (data (np_isin Q V))))))
                (after_create_mask h m l Q V)).
Proof. apply mask_pixels_value_mode_cases. Qed.

Lemma mask_pixels_value_mode_outcomes_witness :
  (values_found qa_layer [1] = false
   ∧ mask_pixels (DArr arr_loc) mask_loc (PList vals_loc) band_store
     = Raise ValueNotFound band_store)
  ∨ (values_found qa_layer [1] = true
     ∧ broadcastable (shape qa_layer) (shape bands) = false
     ∧ mask_pixels (DArr arr_loc) mask_loc (PList vals_loc) band_store
       = Raise (ValueError "operands could not be broadcast together")
               (after_create_mask band_store mask_loc vals_loc qa_layer [1]))
  ∨ (values_found qa_layer [1] = true
     ∧ broadcastable (shape qa_layer) (shape bands) = true
     ∧ mask_pixels (DArr arr_loc) mask_loc (PList vals_loc) band_store
       = Return (DMasked arr_loc (Some (mk_ndarray (shape bands)
                   (broadcast_data (shape qa_layer) (shape bands)
                      (data (np_isin qa_layer [1]))))))
                (after_create_mask band_store mask_loc vals_loc qa_layer [1])).
Proof.
  apply (mask_pixels_value_mode_outcomes band_store arr_loc mask_loc vals_loc
           bands qa_layer [1]);
    [reflexivity | reflexivity | reflexivity | discriminate | discriminate].
Defined.

(** X18: when the data array is not the QA array, a call with values
    that returns gives a masked array over the caller's data buffer, and
    the values read through it are the values the caller passed. *)
Theorem mask_pixels_keeps_data (h h1 : heap) (r : data_arg) (d m l : loc)
    (D Q : ndarray Z) (V : list Z) :
  h !! d = Some (OArray D) → h !! m = Some (OArray Q) →
  h !! l = Some (OList V) → V ≠ [] → d ≠ m →
  mask_pixels (DArr d) m (PList l) h = Return r h1 →
  buffer r = Some d ∧ h1 !! d = Some (OArray D) ∧ values h1 r = Some (data D).
Proof.
  intros Hd Hm Hl HV Hdm Hrun.
  assert (d ≠ l) as Hdl by (intros ->; congruence).
  destruct (mask_pixels_value_mode_cases h d m l D Q V Hd Hm Hl HV Hdm)
    as [[_ E]|[(_ & _ & E)|(_ & _ & E)]];
    rewrite E in Hrun; simplify_eq.
  assert (after_create_mask h m l Q V !! d = Some (OArray D)) as Hd'.
  { unfold after_create_mask. by rewrite !lookup_insert_ne. }
  split; [done|]. split; [done|]. unfold values. simpl. by rewrite Hd'.
Qed.

Lemma mask_pixels_keeps_data_witness :
  buffer (DMasked arr_loc (Some band_cover)) = Some arr_loc
  ∧ store3 bands (mk_ndarray [2; 2]%nat [0; 1; 0; 1]) [1] !! arr_loc
    = Some (OArray bands)
  ∧ values (store3 bands (mk_ndarray [2; 2]%nat [0; 1; 0; 1]) [1])
           (DMasked arr_loc (Some band_cover))
    = Some (data bands).
Proof.
  apply (mask_pixels_keeps_data band_store
           (store3 bands (mk_ndarray [2; 2]%nat [0; 1; 0; 1]) [1])
           (DMasked arr_loc (Some band_cover)) arr_loc mask_loc vals_loc
           bands qa_layer [1]);
    [reflexivity | reflexivity | reflexivity | discriminate | discriminate
    | by vm_compute].
Defined.

(** X14: [mask_pixels] uses up its QA array.  After a call with values
    has returned, the QA array holds the 0/1 mask, so a second call with
    the same QA array and the same list raises [ValueNotFound] whenever
    the list holds neither 0 nor 1. *)
Theorem mask_pixels_second_call (h h1 : heap) (arr arr' r : data_arg) (m l : loc)
    (Q : ndarray Z) (V : list Z) :
  h !! m = Some (OArray Q) → h !! l = Some (OList V) → V ≠ [] →
  0 ∉ V → 1 ∉ V →
  mask_pixels arr m (PList l) h = Return r h1 →
  mask_pixels arr' m (PList l) h1 = Raise ValueNotFound h1.
Proof.
  intros Hm Hl HV H0 H1 Hrun.
  assert (m ≠ l) as Hml by (intros ->; congruence).
  destruct (values_found Q V) eqn:Hf.
  2: { rewrite (mask_pixels_value_mode h arr m l Q V), Hf in Hrun; done. }
  destruct (mask_pixels_found h arr m l Q V Hm Hl HV Hf) as [Heq _].
  rewrite Heq in Hrun.
  assert (h1 = after_create_mask h m l Q V) as ->.
  { apply (apply_mask_frame _ _ arr (Arr m)). by rewrite Hrun. }
  apply (mask_pixels_absent _ arr' m l (membership_mask Q V) (py_sorted V)).
  - apply lookup_insert_eq.
  - unfold after_create_mask. by rewrite lookup_insert_ne, lookup_insert_eq.
  - intros Hnil. apply HV, Permutation_nil.
    by rewrite <-Hnil, py_sorted_Permutation.
  - apply Forall_forall. intros v Hv Hin. rewrite elem_of_py_sorted in Hv.
    pose proof (membership_mask_binary Q V) as Hbin.
    unfold binary_valued in Hbin. rewrite Forall_forall in Hbin.
    destruct (Hbin v Hin) as [-> | ->]; [exact (H0 Hv) | exact (H1 Hv)].
Qed.

Lemma mask_pixels_second_call_witness :
  mask_pixels (DArr arr_loc) mask_loc (PList vals_loc)
              (after_create_mask (store3 bands qa_layer [96]) mask_loc vals_loc
                                 qa_layer [96])
  = Raise ValueNotFound
          (after_create_mask (store3 bands qa_layer [96]) mask_loc vals_loc
                             qa_layer [96]).
Proof.
  apply (mask_pixels_second_call (store3 bands qa_layer [96]) _ (DArr arr_loc)
           (DArr arr_loc)
           (DMasked arr_loc (Some (mk_ndarray [3; 2; 2]%nat
              [false; false; true; false; false; false; true; false;
               false; false; true; false])))
           mask_loc vals_loc qa_layer [96]);
    [reflexivity | reflexivity | discriminate
    | apply (bool_decide_unpack _); by vm_compute
    | apply (bool_decide_unpack _); by vm_compute
    | by vm_compute].
Defined.

(** X15: when the data array and the QA array are one object, the call
    returns a masked array whose values are the 0/1 mask: the data the
    caller passed is gone. *)
Theorem mask_pixels_aliased_arrays (h : heap) (m l : loc) (Q : ndarray Z)
    (V : list Z) :
  h !! m = Some (OArray Q) → h !! l = Some (OList V) → V ≠ [] →
  wf_ndarray Q → values_found Q V = true →
  mask_pixels (DArr m) m (PList l) h
  = Return (DMasked m (Some (np_isin Q V))) (after_create_mask h m l Q V)
  ∧ values (after_create_mask h m l Q V) (DMasked m (Some (np_isin Q V)))
    = Some (data (membership_mask Q V)).
Proof.
  intros Hm Hl HV Hwf Hf.
  destruct (mask_pixels_found h (DArr m) m l Q V Hm Hl HV Hf) as [-> H1].
  assert (after_create_mask h m l Q V !! m = Some (OArray (membership_mask Q V)))
    as Hm' by apply lookup_insert_eq.
  split.
  - rewrite (apply_mask_same_shape _ m m (membership_mask Q V) (membership_mask Q V));
      try done.
    + by rewrite eq_scalar_membership.
    + by apply membership_mask_wf.
  - unfold values. simpl. by rewrite Hm'.
Qed.

Lemma mask_pixels_aliased_arrays_witness :
  mask_pixels (DArr mask_loc) mask_loc (PList vals_loc) band_store
  = Return (DMasked mask_loc (Some (np_isin qa_layer [1])))
           (after_create_mask band_store mask_loc vals_loc qa_layer [1])
  ∧ values (after_create_mask band_store mask_loc vals_loc qa_layer [1])
           (DMasked mask_loc (Some (np_isin qa_layer [1])))
    = Some (data (membership_mask qa_layer [1])).
Proof.
  apply (mask_pixels_aliased_arrays band_store mask_loc vals_loc qa_layer [1]);
    [reflexivity | reflexivity | discriminate | reflexivity | reflexivity].
Defined.

(** X16: a non-empty tuple of values is never accepted.  [mask_pixels]
    raises [ValueNotFound] when the check fails and otherwise
    [InvalidInput_values], because a tuple has no [sort]; in both cases
    the store is untouched. *)
Theorem mask_pixels_tuple_values (h : heap) (arr : data_arg) (m : loc)
    (Q : ndarray Z) (xs : list Z) :
  h !! m = Some (OArray Q) → xs ≠ [] →
  mask_pixels arr m (PTuple xs) h
  = Raise (if values_found Q xs then InvalidInput_values else ValueNotFound) h.
Proof.
  intros Hm Hxs. unfold mask_pixels.
  unfold bind at 1. unfold truthy, ret at 1.
  rewrite bool_decide_eq_false_2 by done. simpl.
  unfold bind at 1. unfold bind at 1. rewrite (get_array_ok _ _ _ Hm).
  unfold bind at 1. unfold ndarray_contains, items, bind at 1. unfold ret at 1.
  fold (values_found Q xs). by destruct (values_found Q xs).
Qed.

Lemma mask_pixels_tuple_values_witness :
  mask_pixels (DArr arr_loc) mask_loc (PTuple [1]) doc_store
  = Raise (if values_found im_mask [1] then InvalidInput_values else ValueNotFound)
          doc_store.
Proof.
  apply (mask_pixels_tuple_values doc_store (DArr arr_loc) mask_loc im_mask [1]);
    [reflexivity | discriminate].
Defined.

Example mask_pixels_tuple_of_present_value :
  mask_pixels (DArr arr_loc) mask_loc (PTuple [1]) doc_store
  = Raise InvalidInput_values doc_store.
Proof. by vm_compute. Qed.

(** ** The table of QA values *)

Lemma dict_get_elem_of {V} (d : list (string * V)) k v :
  dict_get d k = Some v → v ∈ d.*2.
Proof.
  induction d as [|[k' v'] d IH]; simpl; [done|].
  destruct (String.eqb k k').
  - intros [= ->]. left.
  - intros H. right. by apply IH.
Qed.

Lemma flag_values_in_table band sensor condition codes :
  flag_values band sensor condition = Some codes → codes ∈ table_lists.
Proof.
  unfold flag_values, table_lists. intros H.
  destruct (dict_get pixel_flags band) as [b|] eqn:Hb; [|done].
  simpl in H. destruct (dict_get b sensor) as [s|] eqn:Hs; [|done].
  simpl in H.
  apply list_elem_of_bind. exists b. split; [|by eapply dict_get_elem_of].
  apply list_elem_of_bind. exists s. split; [|by eapply dict_get_elem_of].
  by eapply dict_get_elem_of.
Qed.

Lemma table_lists_sorted : Forall (fun codes => py_sorted codes = codes) table_lists.
Proof. apply (bool_decide_unpack _). by vm_compute. Qed.

(** X17: the lists of [pixel_flags] are written in ascending order, so
    the in-place sort of [_create_mask] does not disturb the table: a
    call with a list of the table as [vals] returns and leaves that list
    as it was. *)
Theorem create_mask_keeps_table_list (h : heap) (q l : loc) (Q : ndarray Z)
    (band sensor condition : string) (codes : list Z) :
  flag_values band sensor condition = Some codes →
  h !! q = Some (OArray Q) → h !! l = Some (OList codes) →
  ∃ h',
    _create_mask (Arr q) (PList l) h = Return (Arr q) h'
    ∧ h' !! l = Some (OList codes)
    ∧ h' !! q = Some (OArray (membership_mask Q codes)).
Proof.
  intros Hf Hq Hl.
  assert (l ≠ q) as Hne by (intros ->; congruence).
  pose proof table_lists_sorted as Hs. rewrite Forall_forall in Hs.
  eexists. split; [by apply create_mask_run|].
  rewrite lookup_insert_ne, !lookup_insert_eq by done.
  by rewrite (Hs codes (flag_values_in_table _ _ _ _ Hf)).
Qed.

Lemma create_mask_keeps_table_list_witness :
  ∃ h',
    _create_mask (Arr mask_loc) (PList vals_loc)
                 (store3 bands qa_layer [96; 112; 160; 176; 224])
    = Return (Arr mask_loc) h'
    ∧ h' !! vals_loc = Some (OList [96; 112; 160; 176; 224])
    ∧ h' !! mask_loc
      = Some (OArray (membership_mask qa_layer [96; 112; 160; 176; 224])).
Proof.
  apply (create_mask_keeps_table_list
           (store3 bands qa_layer [96; 112; 160; 176; 224]) mask_loc vals_loc
           qa_layer "pixel_qa" "L47" "Cloud" [96; 112; 160; 176; 224]);
    reflexivity.
Defined.

Example flag_values_missing_key :
  flag_values "pixel_qa" "L5" "Cloud" = None
  ∧ flag_values "pixel_qa" "L8" "Medium Cirrus Confidence" = Some [].
Proof. by split. Qed.
